(** * node-mta-send: outbound delivery orchestration

    A shallow embedding of the main module in its current revision
    ([sendMessage]: address classification, MX resolution with the
    implicit-MX fallback, and the per-host delivery loop), of the parts of its
    two earlier revisions ([sendEmail], [sendOutgoingEmail]) that differ from
    it, and the properties the specification states about them.

    JavaScript values that the code inspects dynamically ([err.code],
    [err.responseCode], [{...sent, host}]) are kept as property lists, so that
    a missing property reads as [undefined] exactly as it does in the source.
    Promises are modelled by their settled outcome ([Ok] / [Throw]); the
    observable effects (DNS queries, transport sessions, log lines) are
    collected in a trace. *)

From Stdlib Require Import List Bool Arith ZArith NArith Lia.
From Stdlib Require Import Ascii String.
From Stdlib Require Import Permutation Sorted.
Import ListNotations.

Local Open Scope string_scope.
Local Open Scope list_scope.

(** ** JavaScript values *)

#[local] Set Warnings "-register-all".

Inductive value : Type :=
| VUndef
| VStr (s : string)
| VNum (n : Z)
| VArr (items : list value)
| VObj (props : list (string * value))
| VError (name message : string) (props : list (string * value)).

(** Own-property lookup in a property list; the first binding wins because
    [obj_set] below never creates a second one. *)
Fixpoint assoc (k : string) (props : list (string * value)) : value :=
  match props with
  | [] => VUndef
  | (k', v) :: rest => if String.eqb k k' then v else assoc k rest
  end.

(** [o[k] = v]: overwrite in place, or append a new property. *)
Fixpoint obj_set (k : string) (v : value) (props : list (string * value))
  : list (string * value) :=
  match props with
  | [] => [(k, v)]
  | (k', v') :: rest =>
      if String.eqb k k' then (k', v) :: rest else (k', v') :: obj_set k v rest
  end.

(** [v.k] *)
Definition get_prop (v : value) (k : string) : value :=
  match v with
  | VObj props => assoc k props
  | VError name message props =>
      if String.eqb k "message" then VStr message
      else if String.eqb k "name" then VStr name
      else assoc k props
  | _ => VUndef
  end.

(** [v === "s"] *)
Definition strict_eq_str (v : value) (s : string) : bool :=
  match v with
  | VStr s' => String.eqb s' s
  | _ => false
  end.

(** [new Error(message)] *)
Definition new_Error (message : string) : value := VError "Error" message [].

(** [err.k = v] on an error object. *)
Definition set_prop (err : value) (k : string) (v : value) : value :=
  match err with
  | VError name message props => VError name message (obj_set k v props)
  | VObj props => VObj (obj_set k v props)
  | other => other
  end.

(** [instanceOfNodeError(value, Error)], that is [value instanceof Error]. *)
Definition instanceOfNodeError (v : value) : bool :=
  match v with
  | VError _ _ _ => true
  | _ => false
  end.

(** The rejection value of [Promise.any] when every input promise rejects:
    an [AggregateError] whose [errors] property lists the individual
    rejection reasons in input order.  It has no [code] property. *)
Definition AggregateError (errors : list value) : value :=
  VError "AggregateError" "All promises were rejected" [("errors", VArr errors)].

(** ** Outcomes and the effect trace *)

Inductive result (A : Type) : Type :=
| Ok (a : A)
| Throw (e : value).
Arguments Ok {A} a.
Arguments Throw {A} e.

Inductive level : Type := LDebug | LError.

Inductive event : Type :=
| EvQueryMX (domain : string)
| EvQueryA (domain : string)
| EvQueryAAAA (domain : string)
| EvNewConnection (host : string)
| EvConnect (host : string)
| EvSend (host : string)
| EvQuit (host : string)
| EvLog (l : level) (text : string).

(** An asynchronous computation: the effects it performed, and how its
    promise settled. *)
Definition M (A : Type) : Type := (list event * result A)%type.

Definition ret {A} (a : A) : M A := ([], Ok a).
Definition throw {A} (e : value) : M A := ([], Throw e).
Definition emit (ev : event) : M unit := ([ev], Ok tt).
Definition lift {A} (r : result A) : M A := ([], r).

Definition bind {A B} (m : M A) (f : A -> M B) : M B :=
  match m with
  | (t, Ok a) => let (t', r) := f a in (t ++ t', r)
  | (t, Throw e) => (t, Throw e)
  end.

(** [try { m } catch (e) { h e }] *)
Definition try_catch {A} (m : M A) (h : value -> M A) : M A :=
  match m with
  | (t, Throw e) => let (t', r) := h e in (t ++ t', r)
  | settled => settled
  end.

Notation "x <- m ;; k" := (bind m (fun x => k))
  (at level 61, m at next level, right associativity).
Notation "m ;;; k" := (bind m (fun _ => k))
  (at level 61, right associativity).

Definition trace {A} (m : M A) : list event := fst m.
Definition outcome {A} (m : M A) : result A := snd m.

(** ** Strings *)

Definition is_digit (c : ascii) : bool :=
  let n := nat_of_ascii c in ((48 <=? n) && (n <=? 57))%nat.

(** ASCII lower-casing, as [String.prototype.toLowerCase] and the [i] flag of
    a non-unicode regular expression act on ASCII text. *)
Definition lower (c : ascii) : ascii :=
  let n := nat_of_ascii c in
  if ((65 <=? n) && (n <=? 90))%nat then ascii_of_nat (n + 32) else c.

Fixpoint toLowerCase (s : string) : string :=
  match s with
  | EmptyString => EmptyString
  | String c s' => String (lower c) (toLowerCase s')
  end.

(** [s.startsWith(p)] *)
Fixpoint startsWith (s p : string) {struct p} : bool :=
  match p with
  | EmptyString => true
  | String a p' =>
      match s with
      | EmptyString => false
      | String b s' => Ascii.eqb a b && startsWith s' p'
      end
  end.

(** [s.split(".")] for a one-character separator: always at least one piece. *)
Fixpoint split (sep : ascii) (s : string) : list string :=
  match s with
  | EmptyString => [EmptyString]
  | String c s' =>
      if Ascii.eqb c sep then EmptyString :: split sep s'
      else match split sep s' with
           | piece :: pieces => String c piece :: pieces
           | [] => [String c EmptyString]
           end
  end.

(** [Number(s)] on a string of decimal digits; [None] stands for [NaN]
    (only digit strings reach it: the captures of [ipv4re]). *)
Fixpoint Number_acc (acc : Z) (s : string) : option Z :=
  match s with
  | EmptyString => Some acc
  | String c s' =>
      if is_digit c
      then Number_acc (10 * acc + Z.of_nat (nat_of_ascii c - 48)) s'
      else None
  end.

Definition Number (s : string) : option Z := Number_acc 0 s.

(** ** Regular expressions

    The three patterns of the source are sequences of literal characters and
    greedily quantified character classes, some of them inside a capture
    group.  [exec] is the backtracking matcher of [String.prototype.match]
    for that fragment: leftmost start, longest repetition first. *)

Inductive item : Type :=
| Lit (c : ascii)
| Rep (cls : ascii -> bool) (lo : nat) (hi : option nat) (capture : bool).

Record regex : Type := {
  items : list item;
  ignoreCase : bool
}.

Definition chr_eq (ic : bool) (c x : ascii) : bool :=
  if ic then Ascii.eqb (lower c) (lower x) else Ascii.eqb c x.

Definition below (n : nat) (hi : option nat) : bool :=
  match hi with
  | Some h => (n <? h)%nat
  | None => true
  end.

Fixpoint rev_string (acc : list ascii) (tail : string) : string :=
  match acc with
  | [] => tail
  | c :: acc' => rev_string acc' (String c tail)
  end.

(** Greedy repetition: having consumed [n] characters ([taken], reversed),
    first try to consume one more, and only then let the rest of the pattern
    [k] run from here. *)
Fixpoint rep (cls : ascii -> bool) (lo : nat) (hi : option nat) (capture : bool)
    (k : string -> option (list string))
    (s : string) (n : nat) (taken : list ascii) : option (list string) :=
  let stop :=
    if (lo <=? n)%nat then
      match k s with
      | Some caps =>
          Some (if capture then rev_string taken EmptyString :: caps else caps)
      | None => None
      end
    else None in
  match s with
  | String x s' =>
      if cls x && below n hi then
        match rep cls lo hi capture k s' (S n) (x :: taken) with
        | Some caps => Some caps
        | None => stop
        end
      else stop
  | EmptyString => stop
  end.

(** Match the pattern at the beginning of [s]; the captures on success. *)
Fixpoint match_here (ic : bool) (pat : list item) (s : string)
  : option (list string) :=
  match pat with
  | [] => Some []
  | Lit c :: pat' =>
      match s with
      | String x s' => if chr_eq ic c x then match_here ic pat' s' else None
      | EmptyString => None
      end
  | Rep cls lo hi capture :: pat' =>
      rep cls lo hi capture (match_here ic pat') s 0 []
  end.

(** [s.match(re)] without the [g] flag: the capture groups [m[1], m[2], ...]
    of the leftmost match, or [None] for [null]. *)
Fixpoint exec (re : regex) (s : string) : option (list string) :=
  match match_here (ignoreCase re) (items re) s with
  | Some caps => Some caps
  | None =>
      match s with
      | String _ s' => exec re s'
      | EmptyString => None
      end
  end.

(** [m[i]] for [i >= 1]. *)
Definition group (caps : list string) (i : nat) : string :=
  nth (i - 1) caps EmptyString.

Definition lits (s : string) : list item :=
  map Lit (list_ascii_of_string s).

Definition not_rbracket (c : ascii) : bool := negb (Ascii.eqb c "]").

(** ** External collaborators *)

(** One octet of the dotted quad: [25[0-5]|2[0-4]\d|1\d\d|[1-9]\d|\d]. *)
Definition in_range (lo hi c : ascii) : bool :=
  ((nat_of_ascii lo <=? nat_of_ascii c) && (nat_of_ascii c <=? nat_of_ascii hi))%nat.

Definition is_octet (s : string) : bool :=
  match s with
  | String a EmptyString => is_digit a
  | String a (String b EmptyString) => in_range "1" "9" a && is_digit b
  | String a (String b (String c EmptyString)) =>
      (Ascii.eqb a "1" && is_digit b && is_digit c)
      || (Ascii.eqb a "2" && in_range "0" "4" b && is_digit c)
      || (Ascii.eqb a "2" && Ascii.eqb b "5" && in_range "0" "5" c)
  | _ => false
  end.

(** Modelled from the spec: [isIp.v4] belongs to the is-ip package, which is
    not part of the repository.  A valid IPv4 address is a dotted quad of
    four decimal octets 0..255 written without leading zeros, which is what
    the exact-match pattern behind [isIp.v4] accepts:
    [^octet(?:\.octet){3}$]. *)
Definition isIp_v4 (s : string) : bool :=
  match split "." s with
  | [a; b; c; d] => is_octet a && is_octet b && is_octet c && is_octet d
  | _ => false
  end.

(** What smtp-address-parser returns for a mailbox, as far as the code reads
    it: [parsed.domainPart.AddressLiteral] and [parsed.domainPart.DomainName],
    either of which may be [undefined]. *)
Record DomainPart : Type := {
  AddressLiteral : option string;
  DomainName : option string
}.

Record Mailbox : Type := { domainPart : DomainPart }.

Record MXRecord : Type := { priority : Z; exchange : string }.

(** How one awaited call on an SMTP connection ends: its callback gets a
    result, its callback gets an error, or the connection emits ["error"]
    while the call is pending. *)
Inductive settle (A : Type) : Type :=
| Done (a : A)
| Failed (e : value)
| SocketError (e : value).
Arguments Done {A} a.
Arguments Failed {A} e.
Arguments SocketError {A} e.

Record Session : Type := {
  connect : settle unit;
  send : settle (list (string * value))
}.

(** Everything outside the program: the address parser, the DNS resolver,
    [Math.random], the SMTP servers and the two stringifiers used for log
    lines.  [session i host] is the behaviour of the [i]-th connection the
    call opens, to [host]; [random i] is the [i]-th draw (scaled to an
    integer, which keeps the order of the draws). *)
Record Env : Type := {
  parse : string -> result Mailbox;
  resolveMx : string -> result (list MXRecord);
  resolve4 : string -> result (list string);
  resolve6 : string -> result (list string);
  random : nat -> Z;
  session : nat -> string -> Session;
  JSON_stringify : value -> string;
  toString : value -> string
}.

(** [Promise.any]: fulfils as soon as one input fulfils, and rejects with an
    [AggregateError] of all the reasons when every input rejects.  Which
    fulfilled input wins the race is not observable here: both callers
    discard the value. *)
Fixpoint Promise_any_acc {A} (ps : list (result A)) (errors : list value)
  : result A :=
  match ps with
  | [] => Throw (AggregateError (rev errors))
  | Ok a :: _ => Ok a
  | Throw e :: rest => Promise_any_acc rest (e :: errors)
  end.

Definition Promise_any {A} (ps : list (result A)) : result A :=
  Promise_any_acc ps [].

(** ** lodash [_.sortBy(mx, ["priority", Math.random])]

    [baseOrderBy] evaluates every iteratee once per element, remembers the
    element's index, sorts with [compareMultiple] and strips the keys. *)
Record keyed : Type := {
  criteria : list Z;
  index : nat;
  item_value : MXRecord
}.

Definition compareAscending (x y : Z) : Z :=
  if (x >? y)%Z then 1%Z else if (x <? y)%Z then (-1)%Z else 0%Z.

Fixpoint compareCriteria (xs ys : list Z) : Z :=
  match xs, ys with
  | x :: xs', y :: ys' =>
      let r := compareAscending x y in
      if (r =? 0)%Z then compareCriteria xs' ys' else r
  | _, _ => 0%Z
  end.

Definition compareMultiple (a b : keyed) : Z :=
  let r := compareCriteria (criteria a) (criteria b) in
  if (r =? 0)%Z then (Z.of_nat (index a) - Z.of_nat (index b))%Z else r.

(** [array.sort(comparer)].  [compareMultiple] never answers 0 for two
    distinct elements (the index breaks every tie), so the sorted array does
    not depend on the sorting algorithm; insertion sort computes it. *)
Fixpoint insert_sorted (x : keyed) (l : list keyed) : list keyed :=
  match l with
  | [] => [x]
  | y :: l' =>
      if (compareMultiple x y <=? 0)%Z then x :: l else y :: insert_sorted x l'
  end.

Fixpoint Array_sort (l : list keyed) : list keyed :=
  match l with
  | [] => []
  | x :: l' => insert_sorted x (Array_sort l')
  end.

Fixpoint baseMap (rnd : nat -> Z) (i : nat) (mx : list MXRecord) : list keyed :=
  match mx with
  | [] => []
  | r :: rest =>
      {| criteria := [priority r; rnd i]; index := i; item_value := r |}
        :: baseMap rnd (S i) rest
  end.

Definition sortBy (rnd : nat -> Z) (mx : list MXRecord) : list MXRecord :=
  map item_value (Array_sort (baseMap rnd 0 mx)).

Definition no_data (err : value) : bool :=
  strict_eq_str (get_prop err "code") "ENODATA"
  || strict_eq_str (get_prop err "code") "ENOTFOUND".

(** The two address lookups are started together and raced. *)
Definition race_addresses (env : Env) (domain : string) : M (list string) :=
  emit (EvQueryA domain) ;;;
  emit (EvQueryAAAA domain) ;;;
  lift (Promise_any [resolve4 env domain; resolve6 env domain]).

(** ** The delivery attempt shared by the three revisions

    [wrapErrorEvent(connection, async () => {...}, logger)]: the promise
    rejects with whatever comes first, the rejection of a pending call or an
    ["error"] event of the connection, which the listener also logs. *)

Record Envelope : Type := { from : string; to : string }.

Definition await_call {A} (env : Env) (s : settle A) : M A :=
  match s with
  | Done a => ret a
  | Failed e => throw e
  | SocketError e =>
      emit (EvLog LError ("Captured a socket error! " ++ toString env e)) ;;;
      throw e
  end.

Definition wrapErrorEvent (env : Env) (i : nat) (host : string)
    (envelope : Envelope) : M (list (string * value)) :=
  emit (EvLog LDebug ("About to connect to host " ++ host)) ;;;
  emit (EvConnect host) ;;;
  await_call env (connect (session env i host)) ;;;
  emit (EvLog LDebug ("Connected, about to send a message from "
                        ++ from envelope ++ " to " ++ to envelope)) ;;;
  emit (EvSend host) ;;;
  sent <- await_call env (send (session env i host)) ;;
  emit (EvLog LDebug "Message sent successfuly") ;;;
  ret (obj_set "host" (VStr host) sent).

(** ** [src/main.ts], the oldest revision: [sendOutgoingEmail] *)

Module Main_ts.

(** [getMXs]: every failure of the address race reads as "no route", and
    so does an MX lookup whose [errno] is ["ETIMEOUT"].  The [catch] block
    reads [e.code] without testing what [e] is: on [undefined] that read
    itself throws. *)
Definition getMXs (env : Env) (domain : string) : M (list MXRecord) :=
  try_catch
    (emit (EvQueryMX domain) ;;;
     mx <- lift (resolveMx env domain) ;;
     ret (sortBy (random env) mx))
    (fun e =>
       match e with
       | VUndef =>
           throw (VError "TypeError"
                         "Cannot read properties of undefined (reading 'code')" [])
       | _ =>
           if no_data e then
             try_catch
               (race_addresses env domain ;;;
                ret [{| priority := 0; exchange := domain |}])
               (fun _ => ret [])
           else if strict_eq_str (get_prop e "errno") "ETIMEOUT" then ret []
           else throw e
       end).

(** The error objects of the two route checks. *)
Definition failure (message response : string) : value :=
  set_prop (set_prop (new_Error message) "response" (VStr response))
           "responseCode" (VNum 500).

(** Whether [connect()] has been called in a trace. *)
Fixpoint has_connect (t : list event) : bool :=
  match t with
  | [] => false
  | EvConnect _ :: _ => true
  | _ :: t' => has_connect t'
  end.

(** [connection.quit()] of nodemailer's SMTPConnection.  After [connect()]
    it ends the session.  On a connection object whose [connect()] was never
    called the socket is still [false], and writing the QUIT command to it
    throws. *)
Definition quit (connect_called : bool) (host : string) : M unit :=
  if connect_called then emit (EvQuit host)
  else throw (VError "TypeError" "this._socket.write is not a function" []).

Section Delivery.

(** [isIp.v6] of the is-ip package; [isIp(host)] accepts either family. *)
Variable isIp_v6 : string -> bool.

Definition isIp (host : string) : bool := isIp_v4 host || isIp_v6 host.

(** The host loop of [sendOutgoingEmail].  A host that is not an IP address
    is resolved first, inside the [try] block: when that lookup fails the
    [catch] block logs, and the [connection.quit()] after the [try]
    statement then runs on a connection whose [connect()] was never
    called. *)
Fixpoint sendOutgoingEmail_loop (env : Env) (envelope : Envelope) (i : nat)
    (mxRecords : list MXRecord) : M (list (string * value)) :=
  match mxRecords with
  | [] => throw (new_Error "Could not deliver message.")
  | mxRecord :: rest =>
      let host := exchange mxRecord in
      let attempt :=
        try_catch
          ((if negb (isIp host) then
              emit (EvQueryA host) ;;;
              lift (resolve4 env host) ;;;
              ret tt
            else ret tt) ;;;
           result <- wrapErrorEvent env i host envelope ;;
           quit true host ;;;
           ret (Some result))
          (fun e =>
             emit (EvLog LDebug ("Error in outbound from " ++ from envelope
                                   ++ " to " ++ to envelope ++ ": "
                                   ++ JSON_stringify env e)) ;;;
             ret None) in
      emit (EvNewConnection host) ;;;
      returned <- attempt ;;
      match returned with
      | Some result => ret result
      | None =>
          quit (has_connect (trace attempt)) host ;;;
          sendOutgoingEmail_loop env envelope (S i) rest
      end
  end.

(** [sendOutgoingEmail] from the line after [await getMXs(...)]. *)
Definition sendOutgoingEmail_route (env : Env) (envelope : Envelope)
    (mxRecords : list MXRecord) : M (list (string * value)) :=
  if (List.length mxRecords =? 0)%nat then
    throw (failure "No MX (or A or AAAA) record" "No MX or A or AAAA")
  else
    match mxRecords with
    | [r] =>
        if (priority r =? 0)%Z && String.eqb (exchange r) "" then
          throw (failure "Null MX record" "Null MX")
        else sendOutgoingEmail_loop env envelope 0 mxRecords
    | _ => sendOutgoingEmail_loop env envelope 0 mxRecords
    end.

End Delivery.

End Main_ts.

(** ** The middle revision: [sendEmail] *)

Module Part_000.

(** [getMXs]: [None] is the [undefined] the function returns when the inner
    [catch] block is left without a [return]: for an [Error] whose code is
    neither ["ENODATA"] nor ["ENOTFOUND"]. *)
Definition getMXs (env : Env) (domain : string)
  : M (option (list MXRecord)) :=
  try_catch
    (emit (EvQueryMX domain) ;;;
     mx <- lift (resolveMx env domain) ;;
     ret (Some (sortBy (random env) mx)))
    (fun err_mx =>
       if instanceOfNodeError err_mx then
         if no_data err_mx then
           try_catch
             (race_addresses env domain ;;;
              ret (Some [{| priority := 0; exchange := domain |}]))
             (fun e_addr =>
                if instanceOfNodeError e_addr then
                  if no_data e_addr then ret (Some []) else ret None
                else throw e_addr)
         else throw err_mx
       else throw err_mx).

Definition failure (message response : string) : value :=
  set_prop (set_prop (new_Error message) "response" (VStr response))
           "responseCode" (VNum 500).

(** The host loop of [sendEmail] (the [for ... of] statement and the
    [throw] after it).  The body either returns ([Some]) or falls through
    to the next record ([None]): its [catch] only logs. *)
Fixpoint sendEmail_loop (env : Env) (envelope : Envelope) (i : nat)
    (mxRecords : list MXRecord) : M (list (string * value)) :=
  match mxRecords with
  | [] => throw (new_Error "Could not deliver message.")
  | mxRecord :: rest =>
      let host := exchange mxRecord in
      emit (EvNewConnection host) ;;;
      returned <-
        try_catch
          (result <- wrapErrorEvent env i host envelope ;;
           emit (EvQuit host) ;;;
           ret (Some result))
          (fun e =>
             emit (EvLog LDebug (JSON_stringify env e)) ;;;
             ret None) ;;
      match returned with
      | Some result => ret result
      | None =>
          emit (EvQuit host) ;;;
          sendEmail_loop env envelope (S i) rest
      end
  end.

(** [sendEmail] from the line after [await getMXs(...)]; reading [.length]
    of [undefined] throws a [TypeError]. *)
Definition sendEmail_route (env : Env) (envelope : Envelope)
    (resolved : option (list MXRecord)) : M (list (string * value)) :=
  match resolved with
  | None =>
      throw (VError "TypeError"
                    "Cannot read properties of undefined (reading 'length')" [])
  | Some mxRecords =>
      if (List.length mxRecords =? 0)%nat then
        throw (failure "No MX (or A or AAAA) record" "No MX or A or AAAA")
      else
        match mxRecords with
        | [r] =>
            if (priority r =? 0)%Z && String.eqb (exchange r) "" then
              throw (failure "Null MX record" "Null MX")
            else sendEmail_loop env envelope 0 mxRecords
        | _ => sendEmail_loop env envelope 0 mxRecords
        end
  end.

End Part_000.

(** ** The current revision: [sendMessage] and the address classifier *)

Module Part_001.

Definition implicitMX (env : Env) (domain : string) : M (list MXRecord) :=
  try_catch
    (race_addresses env domain ;;;
     ret [{| priority := 0; exchange := domain |}])
    (fun err =>
       if instanceOfNodeError err then
         if no_data err then ret [] else throw err
       else throw err).

Definition getMXs (env : Env) (domain : string) : M (list MXRecord) :=
  try_catch
    (emit (EvQueryMX domain) ;;;
     mx <- lift (resolveMx env domain) ;;
     if (List.length mx =? 0)%nat then implicitMX env domain
     else ret (sortBy (random env) mx))
    (fun err =>
       if instanceOfNodeError err then
         if no_data err then implicitMX env domain else throw err
       else throw err).

Definition m6_re : regex :=
  {| items := lits "[IPv6:" ++ [Rep not_rbracket 0 None true; Lit "]"];
     ignoreCase := true |}.

Definition m4_re : regex :=
  {| items := [Lit "["; Rep not_rbracket 0 None true; Lit "]"];
     ignoreCase := false |}.

Definition addressFromLiteral (literal : string) : result string :=
  match exec m6_re literal with
  | Some m6 => Ok (group m6 1)
  | None =>
      match exec m4_re literal with
      | Some m4 => Ok (group m4 1)
      | None => Throw (new_Error (literal ++ " is not an address literal"))
      end
  end.

Definition ipv4re : regex :=
  {| items := [Rep is_digit 1 (Some 3) true; Lit ".";
               Rep is_digit 1 (Some 3) true; Lit ".";
               Rep is_digit 1 (Some 3) true; Lit ".";
               Rep is_digit 1 (Some 3) true];
     ignoreCase := false |}.

Section Classifier.

(** [isIp.v6] of the is-ip package, a parameter of the classifier. *)
Variable isIp_v6 : string -> bool.

Definition isLoopback (addr : string) : result bool :=
  if isIp_v4 addr then
    match exec ipv4re addr with
    | None => Throw (new_Error (addr ++ " not a valid IPv4 address"))
    | Some a => Ok (String.eqb (group a 1) "127")
    end
  else if isIp_v6 addr then Ok (String.eqb addr "::1")
  else Throw (new_Error (addr ++ " is not an IP address")).

Definition isPrivate (addr : string) : result bool :=
  if isIp_v4 addr then
    match exec ipv4re addr with
    | None => Throw (new_Error (addr ++ " not a valid IPv4 address"))
    | Some a =>
        if String.eqb (group a 1) "10" then Ok true
        else if String.eqb (group a 1) "172" then
          match Number (group a 2) with
          | Some oct => Ok ((16 <=? oct)%Z && (oct <=? 31)%Z)
          | None => Ok false
          end
        else Ok (String.eqb (group a 1) "192" && String.eqb (group a 2) "168")
    end
  else if isIp_v6 addr then Ok (startsWith (toLowerCase addr) "fd")
  else Throw (new_Error (addr ++ " is not an IP address")).

End Classifier.

(** The error objects [sendMessage] throws: [new Error(message)] with
    [response] and [responseCode = 500] assigned afterwards. *)
Definition failure (message response : string) : value :=
  set_prop (set_prop (new_Error message) "response" (VStr response))
           "responseCode" (VNum 500).

(** JavaScript truthiness of an optional string property. *)
Definition truthy (o : option string) : bool :=
  match o with
  | Some s => negb (String.eqb s "")
  | None => false
  end.

(** The [for ... of] statement of [sendMessage] and the [throw] after it.
    The body returns from its [try] block and throws from its [catch]
    block, so it never falls through ([None]) to the next record. *)
Fixpoint sendMessage_loop (env : Env) (envelope : Envelope) (i : nat)
    (mxRecords : list MXRecord) : M (list (string * value)) :=
  match mxRecords with
  | [] => throw (new_Error "Could not deliver message.")
  | mxRecord :: rest =>
      let host := exchange mxRecord in
      emit (EvNewConnection host) ;;;
      returned <-
        try_catch
          (result <- wrapErrorEvent env i host envelope ;;
           emit (EvQuit host) ;;;
           ret (Some result))
          (fun e =>
             emit (EvLog LError (JSON_stringify env e)) ;;;
             emit (EvQuit host) ;;;
             throw (failure "Delivery attempt failed" "Delivery attempt failed")) ;;
      match returned with
      | Some result => ret result
      | None => sendMessage_loop env envelope (S i) rest
      end
  end.

(** [sendMessage] from the line after [await getMXs(...)]: the two route
    checks, then the loop. *)
Definition sendMessage_route (env : Env) (envelope : Envelope)
    (mxRecords : list MXRecord) : M (list (string * value)) :=
  if (List.length mxRecords =? 0)%nat then
    throw (failure "No MX (or A or AAAA) record" "No MX or A or AAAA")
  else
    match mxRecords with
    | [r] =>
        if (priority r =? 0)%Z && String.eqb (exchange r) "" then
          throw (failure "Null MX record" "Null MX")
        else sendMessage_loop env envelope 0 mxRecords
    | _ => sendMessage_loop env envelope 0 mxRecords
    end.

(** [undefined.split] *)
Definition TypeError (message : string) : value := VError "TypeError" message [].

Definition sendMessage (env : Env) (name mailFrom rcptTo : string)
  : M (list (string * value)) :=
  from_parsed <-
    (if String.eqb mailFrom "<>" then ret None
     else p <- lift (parse env mailFrom) ;; ret (Some p)) ;;
  to_parsed <- lift (parse env rcptTo) ;;
  let envelope := {| from := mailFrom; to := rcptTo |} in
  if truthy (AddressLiteral (domainPart to_parsed)) then
    throw (failure "Domain is an address literal" "Domain is an address literal")
  else
    match DomainName (domainPart to_parsed) with
    | None =>
        throw (TypeError "Cannot read properties of undefined (reading 'split')")
    | Some domainName =>
        if (List.length (split "." domainName) <? 2)%nat then
          throw (failure "Domain not fully qualified" "Domain not fully qualified")
        else
          mxRecords <- getMXs env domainName ;;
          sendMessage_route env envelope mxRecords
    end.

End Part_001.

(** ** Vocabulary of the properties *)

(** A DNS rejection as Node builds it: an [Error] with [code], [syscall] and
    [hostname] properties. *)
Definition dns_error (syscall code hostname : string) : value :=
  VError "Error" (syscall ++ " " ++ code ++ " " ++ hostname)
         [("code", VStr code); ("syscall", VStr syscall); ("hostname", VStr hostname)].

(** The same rejection on the Node releases that also copied the code into
    [errno]. *)
Definition legacy_dns_error (syscall code hostname : string) : value :=
  set_prop (dns_error syscall code hostname) "errno" (VStr code).

Definition timed_out (e : value) : Prop :=
  instanceOfNodeError e = true /\ get_prop e "code" = VStr "ETIMEOUT".

(** The error a delivery attempt over a session ends with, if it fails. *)
Definition session_error (s : Session) : option value :=
  match connect s with
  | Failed e | SocketError e => Some e
  | Done _ =>
      match send s with
      | Failed e | SocketError e => Some e
      | Done _ => None
      end
  end.


(** The hosts whose connection the call closed, in order. *)
Fixpoint closed (t : list event) : list string :=
  match t with
  | [] => []
  | EvQuit host :: t' => host :: closed t'
  | _ :: t' => closed t'
  end.

(** The hosts the call tried to connect to, in order. *)
Fixpoint connected (t : list event) : list string :=
  match t with
  | [] => []
  | EvConnect host :: t' => host :: connected t'
  | _ :: t' => connected t'
  end.

(** The DNS queries of a trace, in order. *)
Fixpoint queries (t : list event) : list event :=
  match t with
  | [] => []
  | EvQueryMX d :: t' => EvQueryMX d :: queries t'
  | EvQueryA d :: t' => EvQueryA d :: queries t'
  | EvQueryAAAA d :: t' => EvQueryAAAA d :: queries t'
  | _ :: t' => queries t'
  end.

(** The session the [i]-th attempt of a loop over [route] gets. *)
Definition attempt_error (env : Env) (i : nat) (r : MXRecord) : option value :=
  session_error (session env i (exchange r)).

(** Every attempt over [route], numbered from [i], fails. *)
Fixpoint all_fail (env : Env) (i : nat) (route : list MXRecord) : Prop :=
  match route with
  | [] => True
  | r :: rest => attempt_error env i r <> None /\ all_fail env (S i) rest
  end.

(** The MX lookup gave nothing to sort: an empty answer, or a no-data /
    no-such-domain error. *)
Definition no_mx (r : result (list MXRecord)) : bool :=
  match r with
  | Ok [] => true
  | Ok _ => false
  | Throw e => instanceOfNodeError e && no_data e
  end.

(** [sendOutgoingEmail] gets past its early lookup for this host: the host
    is an IP address, or its A lookup answers. *)
Definition resolves (isIp_v6 : string -> bool) (env : Env) (host : string) : bool :=
  Main_ts.isIp isIp_v6 host
  || match resolve4 env host with
     | Ok _ => true
     | Throw _ => false
     end.

Definition digit_or_dot (c : ascii) : bool := is_digit c || Ascii.eqb c ".".

(** The envelope gets past the checks of [sendMessage]: the sender is the
    null sender or parses, and the recipient parses to a domain name of at
    least two labels. *)
Definition passes_validation (env : Env) (mailFrom rcptTo domainName : string)
  : Prop :=
  (mailFrom = "<>" \/ exists p, parse env mailFrom = Ok p)
  /\ exists to_parsed,
       parse env rcptTo = Ok to_parsed
       /\ Part_001.truthy (AddressLiteral (domainPart to_parsed)) = false
       /\ DomainName (domainPart to_parsed) = Some domainName
       /\ 2 <= List.length (split "." domainName).

(** The first character of [s] is not an [i] of either case. *)
Definition not_tagged (s : string) : bool :=
  match s with
  | String x _ => negb (Ascii.eqb (lower x) "i")
  | EmptyString => true
  end.

(** The hosts for which the call opened a connection, in order. *)
Fixpoint attempted (t : list event) : list string :=
  match t with
  | [] => []
  | EvNewConnection host :: t' => host :: attempted t'
  | _ :: t' => attempted t'
  end.

Fixpoint count_char (c : ascii) (s : string) : nat :=
  match s with
  | EmptyString => 0
  | String x s' => (if Ascii.eqb x c then 1 else 0) + count_char c s'
  end.

(** The characters of [s] pushed on a reversed accumulator. *)
Fixpoint push (s : string) (taken : list ascii) : list ascii :=
  match s with
  | EmptyString => taken
  | String x s' => push s' (x :: taken)
  end.

Fixpoint all_chars (cls : ascii -> bool) (s : string) : bool :=
  match s with
  | EmptyString => true
  | String x s' => cls x && all_chars cls s'
  end.

(** A repetition that has taken [m] characters cannot take the next one. *)
Definition cannot_extend (cls : ascii -> bool) (hi : option nat) (m : nat)
    (rest : string) : bool :=
  match rest with
  | String x _ => negb (cls x && below m hi)
  | EmptyString => true
  end.

Definition fits (hi : option nat) (m : nat) : Prop :=
  match hi with
  | Some h => m <= h
  | None => True
  end.

(** The input contains a bracketed substring ["[s]"]. *)
Definition bracketed (literal : string) : Prop :=
  exists pre s post, literal = (pre ++ "[" ++ s ++ "]" ++ post)%string.

(** [pieces.join(sep)] *)
Definition join (sep : ascii) (pieces : list string) : string :=
  String.concat (String sep EmptyString) pieces.

(** The numeric value of the [i]-th dot-separated field of an address. *)
Definition octet (i : nat) (addr : string) : Z :=
  match Number (nth i (split "." addr) "") with
  | Some n => n
  | None => (-1)%Z
  end.

Definition private_range (o1 o2 : Z) : bool :=
  ((o1 =? 10) || ((o1 =? 172) && (16 <=? o2) && (o2 <=? 31))
   || ((o1 =? 192) && (o2 =? 168)))%Z.

(** An octet string and its number agree on the comparisons the classifier
    makes. *)
Definition agrees (a : string) (text : string) (n k : Z) : bool :=
  Bool.eqb (String.eqb a text) (n =? k)%Z.

Definition octet_ok (a : string) : bool :=
  match Number a with
  | Some n =>
      (0 <=? n)%Z && (n <=? 255)%Z
      && agrees a "10" n 10 && agrees a "172" n 172 && agrees a "192" n 192
      && agrees a "168" n 168 && agrees a "127" n 127
  | None => false
  end.

Definition by_priority (a b : MXRecord) : Prop := (priority a <= priority b)%Z.

Definition key_le (a b : keyed) : Prop := by_priority (item_value a) (item_value b).

Definition well_keyed (a : keyed) : Prop :=
  exists r, criteria a = [priority (item_value a); r].

Definition null_mx : MXRecord := {| priority := 0; exchange := "" |}.

Definition implicit_route (domain : string) : list MXRecord :=
  [{| priority := 0; exchange := domain |}].

(** ** Example worlds *)

(** A toy parser for the examples: text without ["@"] is rejected; otherwise
    the text after the last ["@"] is the domain part, an address literal when
    it starts with a bracket. *)
Definition example_parse (s : string) : result Mailbox :=
  let d := last (split "@" s) "" in
  if (count_char "@" s =? 0)%nat
  then Throw (new_Error ("address parsing failed: " ++ s))
  else if startsWith d "["
  then Ok {| domainPart := {| AddressLiteral := Some d; DomainName := None |} |}
  else Ok {| domainPart := {| AddressLiteral := None; DomainName := Some d |} |}.

Definition refused (host : string) : value :=
  VError "Error" ("connect ECONNREFUSED " ++ host) [("code", VStr "ECONNREFUSED")].

Definition accepting : Session :=
  {| connect := Done tt;
     send := Done [("accepted", VArr [VStr "nobody@example.com"]);
                   ("response", VStr "250 OK")] |}.

Definition refusing (host : string) : Session :=
  {| connect := SocketError (refused host); send := Failed (refused host) |}.

Definition example_stringify (v : value) : string :=
  match get_prop v "code" with
  | VStr c => "{code:" ++ c ++ "}"
  | _ => "{}"
  end.

Definition example_toString (v : value) : string :=
  match v with
  | VError name message _ => name ++ ": " ++ message
  | VStr s => s
  | _ => "[object Object]"
  end.

Definition example_env
    (mx : string -> result (list MXRecord))
    (a4 a6 : string -> result (list string))
    (sessions : nat -> string -> Session) : Env :=
  {| parse := example_parse;
     resolveMx := mx;
     resolve4 := a4;
     resolve6 := a6;
     random := fun i => Z.of_nat i;
     session := sessions;
     JSON_stringify := example_stringify;
     toString := example_toString |}.

Definition no_records {A} (syscall : string) (domain : string) : result A :=
  Throw (dns_error syscall "ENODATA" domain).

(** MX lookups time out; nothing else is reachable. *)
Definition env_timeout : Env :=
  example_env (fun d => Throw (dns_error "queryMx" "ETIMEOUT" d))
              (no_records "queryA") (no_records "queryAaaa")
              (fun _ => refusing).

Definition env_legacy_timeout : Env :=
  example_env (fun d => Throw (legacy_dns_error "queryMx" "ETIMEOUT" d))
              (no_records "queryA") (no_records "queryAaaa")
              (fun _ => refusing).

(** A domain without MX, A or AAAA records. *)
Definition env_no_address : Env :=
  example_env (no_records "queryMx")
              (no_records "queryA")
              (fun d => Throw (dns_error "queryAaaa" "ENOTFOUND" d))
              (fun _ => refusing).

(** A domain without MX records but with an A record. *)
Definition env_address_only : Env :=
  example_env (no_records "queryMx")
              (fun _ => Ok ["192.0.2.25"])
              (no_records "queryAaaa")
              (fun _ _ => accepting).

(** Two exchangers: the preferred one refuses connections, the other one
    accepts the message. *)
Definition two_hosts : list MXRecord :=
  [{| priority := 10; exchange := "mx1.example.com" |};
   {| priority := 20; exchange := "mx2.example.com" |}].

Definition first_refuses (i : nat) (host : string) : Session :=
  if String.eqb host "mx1.example.com" then refusing host else accepting.

Definition env_two_hosts : Env :=
  example_env (fun _ => Ok (rev two_hosts))
              (no_records "queryA") (no_records "queryAaaa")
              first_refuses.

(** The same two exchangers, both accepting mail. *)
Definition env_all_accept : Env :=
  example_env (fun _ => Ok (rev two_hosts))
              (no_records "queryA") (no_records "queryAaaa")
              (fun _ _ => accepting).

(** A domain that publishes the null MX record. *)
Definition env_null_mx : Env :=
  example_env (fun _ => Ok [null_mx])
              (no_records "queryA") (no_records "queryAaaa")
              (fun _ _ => accepting).

(** One exchanger, which refuses connections. *)
Definition one_host : list MXRecord :=
  [{| priority := 10; exchange := "mx1.example.com" |}].

Definition env_one_host : Env :=
  example_env (fun _ => Ok one_host)
              (no_records "queryA") (no_records "queryAaaa")
              first_refuses.

(** Two exchangers of equal priority; [draws] is what [Math.random] gives. *)
Definition tied_hosts : list MXRecord :=
  [{| priority := 10; exchange := "mx-a.example.com" |};
   {| priority := 10; exchange := "mx-b.example.com" |}].

Definition env_tied (draws : list Z) : Env :=
  {| parse := example_parse;
     resolveMx := fun _ => Ok tied_hosts;
     resolve4 := no_records "queryA";
     resolve6 := no_records "queryAaaa";
     random := fun i => nth i draws 0%Z;
     session := fun _ _ => accepting;
     JSON_stringify := example_stringify;
     toString := example_toString |}.

(** A stand-in for [isIp.v6] in the examples: the text has a colon. *)
Definition example_isIp_v6 (s : string) : bool := (0 <? count_char ":" s)%nat.

Definition example_envelope : Envelope :=
  {| from := "nobody@digilicious.com"; to := "nobody@example.com" |}.

(** * Properties *)

(** ** The effect monad *)

Lemma bind_ret_l {A B} (a : A) (f : A -> M B) : (x <- ret a ;; f x) = f a.
Proof. unfold bind, ret. destruct (f a); reflexivity. Qed.

Lemma bind_throw_l {A B} (e : value) (f : A -> M B) :
  (x <- throw e ;; f x) = throw e.
Proof. reflexivity. Qed.

Lemma bind_emit {B} (ev : event) (m : M B) :
  (emit ev ;;; m) = (ev :: trace m, outcome m).
Proof. unfold bind, emit. destruct m; reflexivity. Qed.

Lemma bind_assoc {A B C} (m : M A) (f : A -> M B) (g : B -> M C) :
  (y <- (x <- m ;; f x) ;; g y) = (x <- m ;; y <- f x ;; g y).
Proof.
  destruct m as [t [a | e]]; simpl; [| reflexivity].
  destruct (f a) as [t' [b | e]]; simpl; [| reflexivity].
  destruct (g b) as [t'' r]. now rewrite app_assoc.
Qed.

Lemma try_catch_ok {A} (t : list event) (a : A) (h : value -> M A) :
  try_catch (t, Ok a) h = (t, Ok a).
Proof. reflexivity. Qed.

Lemma lift_eq {A} (r : result A) : lift r = ([], r).
Proof. reflexivity. Qed.

(** ** [Promise.any] and the address race *)

Lemma Promise_any_two_rejected {A} (e1 e2 : value) :
  @Promise_any A [Throw e1; Throw e2] = Throw (AggregateError [e1; e2]).
Proof. reflexivity. Qed.

Lemma Promise_any_first {A} (a : A) (ps : list (result A)) :
  Promise_any (Ok a :: ps) = Ok a.
Proof. reflexivity. Qed.

Lemma Promise_any_second {A} (e : value) (a : A) (ps : list (result A)) :
  Promise_any (Throw e :: Ok a :: ps) = Ok a.
Proof. reflexivity. Qed.

Lemma AggregateError_has_no_code (errors : list value) :
  instanceOfNodeError (AggregateError errors) = true
  /\ get_prop (AggregateError errors) "code" = VUndef
  /\ no_data (AggregateError errors) = false.
Proof. repeat split. Qed.

(** When one of the two lookups answers, the race fulfils. *)
Lemma race_addresses_fulfils (env : Env) (domain : string) :
  (exists l, resolve4 env domain = Ok l) \/ (exists l, resolve6 env domain = Ok l) ->
  exists l, race_addresses env domain
            = ([EvQueryA domain; EvQueryAAAA domain], Ok l).
Proof.
  unfold race_addresses, Promise_any.
  intros [[l H4] | [l H6]].
  - exists l. rewrite H4. reflexivity.
  - destruct (resolve4 env domain) as [l4 | e4] eqn:H4.
    + exists l4. reflexivity.
    + exists l. rewrite H6. reflexivity.
Qed.

(** When both lookups fail, whatever the failures are, [implicitMX] throws
    the [AggregateError]: its [code] is [undefined], so the test for
    ["ENODATA"] / ["ENOTFOUND"] never succeeds. *)
Lemma implicitMX_all_rejected (env : Env) (domain : string) (e4 e6 : value) :
  resolve4 env domain = Throw e4 ->
  resolve6 env domain = Throw e6 ->
  Part_001.implicitMX env domain
  = ([EvQueryA domain; EvQueryAAAA domain], Throw (AggregateError [e4; e6])).
Proof.
  intros H4 H6. unfold Part_001.implicitMX, race_addresses.
  rewrite H4, H6. reflexivity.
Qed.

Lemma implicitMX_found (env : Env) (domain : string) :
  (exists l, resolve4 env domain = Ok l) \/ (exists l, resolve6 env domain = Ok l) ->
  Part_001.implicitMX env domain
  = ([EvQueryA domain; EvQueryAAAA domain], Ok (implicit_route domain)).
Proof.
  intros H. destruct (race_addresses_fulfils env domain H) as [l Hl].
  unfold Part_001.implicitMX. rewrite Hl. reflexivity.
Qed.

(** [implicitMX] never returns the empty route, and never throws an error
    that [getMXs] would take for "no data". *)
Lemma implicitMX_outcomes (env : Env) (domain : string) :
  outcome (Part_001.implicitMX env domain) = Ok (implicit_route domain)
  \/ exists e4 e6,
       outcome (Part_001.implicitMX env domain) = Throw (AggregateError [e4; e6]).
Proof.
  destruct (resolve4 env domain) as [l4 | e4] eqn:H4.
  - left. rewrite implicitMX_found; eauto.
  - destruct (resolve6 env domain) as [l6 | e6] eqn:H6.
    + left. rewrite implicitMX_found; eauto.
    + right. exists e4, e6. now rewrite (implicitMX_all_rejected _ _ _ _ H4 H6).
Qed.

(** ** C2, C3, C5: the domain resolver *)

Lemma timed_out_not_no_data (e : value) : timed_out e -> no_data e = false.
Proof. intros [_ H]. unfold no_data. rewrite H. reflexivity. Qed.

(** C2 (as amended).  When the MX lookup of [getMXs] fails with a timeout
    error, or with any other error that is not a no-data / no-such-domain
    error, [getMXs] issues no further query and rethrows that very error to
    its caller. *)
Theorem getMXs_rethrows_other_errors (env : Env) (domain : string) (e : value) :
  resolveMx env domain = Throw e ->
  timed_out e \/ no_data e = false ->
  Part_001.getMXs env domain = ([EvQueryMX domain], Throw e).
Proof.
  intros Hmx Hkind.
  assert (Hcode : no_data e = false).
  { destruct Hkind as [Ht | Hn]; [now apply timed_out_not_no_data | exact Hn]. }
  unfold Part_001.getMXs. rewrite Hmx. simpl.
  rewrite Hcode. destruct (instanceOfNodeError e); reflexivity.
Qed.

Lemma getMXs_rethrows_other_errors_witness :
  Part_001.getMXs env_timeout "example.com"
  = ([EvQueryMX "example.com"],
     Throw (dns_error "queryMx" "ETIMEOUT" "example.com")).
Proof.
  apply (getMXs_rethrows_other_errors env_timeout "example.com").
  - reflexivity.
  - left. split; reflexivity.
Defined.

(** C2 as the specification states it fails on [getMXs]: a timed-out MX
    lookup does not give the empty route, the timeout is thrown. *)
Lemma getMXs_timeout_is_thrown :
  ~ (forall (env : Env) (domain : string) (e : value),
        resolveMx env domain = Throw e -> timed_out e ->
        outcome (Part_001.getMXs env domain) = Ok []).
Proof.
  intros H.
  specialize (H env_timeout "example.com"
                (dns_error "queryMx" "ETIMEOUT" "example.com") eq_refl).
  assert (Ht : timed_out (dns_error "queryMx" "ETIMEOUT" "example.com"))
    by (split; reflexivity).
  specialize (H Ht). discriminate H.
Qed.

(** The [catch] block of the oldest [getMXs] on a rejection value other
    than [undefined]. *)
Lemma Main_ts_getMXs_catch (env : Env) (domain : string) (e : value) :
  e <> VUndef ->
  resolveMx env domain = Throw e ->
  Main_ts.getMXs env domain
  = try_catch ([EvQueryMX domain], Throw e)
      (fun e =>
         if no_data e then
           try_catch
             (race_addresses env domain ;;;
              ret [{| priority := 0; exchange := domain |}])
             (fun _ => ret [])
         else if strict_eq_str (get_prop e "errno") "ETIMEOUT" then ret []
         else throw e).
Proof.
  intros Hdef Hmx. unfold Main_ts.getMXs. rewrite Hmx.
  destruct e; try contradiction; reflexivity.
Qed.

(** The oldest revision did return the empty route, for an error whose
    [errno] is ["ETIMEOUT"]. *)
Lemma Main_ts_getMXs_timeout (env : Env) (domain : string) (e : value) :
  resolveMx env domain = Throw e ->
  no_data e = false ->
  get_prop e "errno" = VStr "ETIMEOUT" ->
  Main_ts.getMXs env domain = ([EvQueryMX domain], Ok []).
Proof.
  intros Hmx Hcode Herrno.
  assert (Hdef : e <> VUndef) by (intros E; subst e; discriminate Herrno).
  rewrite (Main_ts_getMXs_catch env domain e Hdef Hmx). simpl.
  rewrite Hcode, Herrno. reflexivity.
Qed.

(** C3.  A domain whose A lookup fails with ENODATA and whose AAAA lookup
    fails with ENOTFOUND: [implicitMX] does not return the empty route, it
    throws the [AggregateError] of [Promise.any]. *)
Theorem implicitMX_no_address_throws :
  Part_001.implicitMX env_no_address "example.com"
  = ([EvQueryA "example.com"; EvQueryAAAA "example.com"],
     Throw (AggregateError [dns_error "queryA" "ENODATA" "example.com";
                            dns_error "queryAaaa" "ENOTFOUND" "example.com"])).
Proof. reflexivity. Qed.

(** C5.  A domain whose MX lookup yields no record (an empty answer, or a
    no-data / no-such-domain error) and which has an A or an AAAA record
    resolves to exactly [[{priority: 0, exchange: domain}]]. *)
Theorem getMXs_implicit_MX (env : Env) (domain : string) :
  (resolveMx env domain = Ok []
   \/ exists e, resolveMx env domain = Throw e
                /\ instanceOfNodeError e = true /\ no_data e = true) ->
  ((exists a l, resolve4 env domain = Ok (a :: l))
   \/ (exists a l, resolve6 env domain = Ok (a :: l))) ->
  outcome (Part_001.getMXs env domain)
  = Ok [{| priority := 0; exchange := domain |}].
Proof.
  intros Hmx Haddr.
  assert (Himp : Part_001.implicitMX env domain
                 = ([EvQueryA domain; EvQueryAAAA domain],
                    Ok (implicit_route domain))).
  { apply implicitMX_found.
    destruct Haddr as [[a [l H]] | [a [l H]]]; [left | right]; eauto. }
  unfold Part_001.getMXs.
  destruct Hmx as [Hmx | [e [Hmx [Herr Hcode]]]]; rewrite Hmx; simpl.
  - rewrite Himp. reflexivity.
  - rewrite Herr, Hcode, Himp. reflexivity.
Qed.

Lemma getMXs_implicit_MX_witness :
  outcome (Part_001.getMXs env_address_only "example.com")
  = Ok [{| priority := 0; exchange := "example.com" |}].
Proof.
  apply (getMXs_implicit_MX env_address_only "example.com").
  - right. exists (dns_error "queryMx" "ENODATA" "example.com").
    repeat split; reflexivity.
  - left. exists "192.0.2.25", []. reflexivity.
Defined.

(** ** C6, C7: the checks before the host loop *)

Lemma failure_fields (message response : string) :
  get_prop (Part_001.failure message response) "message" = VStr message
  /\ get_prop (Part_001.failure message response) "response" = VStr response
  /\ get_prop (Part_001.failure message response) "responseCode" = VNum 500.
Proof. repeat split. Qed.

(** C6.  After resolution, the empty route fails with the "No MX or A or
    AAAA" error and the route made of the single null-MX record fails with
    the "Null MX" error; both carry response code 500, and the trace is
    empty: no session is constructed and no connection is attempted. *)
Theorem sendMessage_route_without_exchanger (env : Env) (envelope : Envelope) :
  (exists err,
      Part_001.sendMessage_route env envelope [] = ([], Throw err)
      /\ get_prop err "response" = VStr "No MX or A or AAAA"
      /\ get_prop err "responseCode" = VNum 500)
  /\ (exists err,
        Part_001.sendMessage_route env envelope [{| priority := 0; exchange := "" |}]
        = ([], Throw err)
        /\ get_prop err "response" = VStr "Null MX"
        /\ get_prop err "responseCode" = VNum 500).
Proof.
  split; eexists; (split; [reflexivity | split; reflexivity]).
Qed.

(** [sendMessage] is its validation followed by resolution and
    [sendMessage_route]. *)
Lemma sendMessage_validated (env : Env) (name mailFrom rcptTo : string)
    (to_parsed : Mailbox) (domainName : string) :
  (mailFrom = "<>" \/ exists p, parse env mailFrom = Ok p) ->
  parse env rcptTo = Ok to_parsed ->
  Part_001.truthy (AddressLiteral (domainPart to_parsed)) = false ->
  DomainName (domainPart to_parsed) = Some domainName ->
  2 <= List.length (split "." domainName) ->
  Part_001.sendMessage env name mailFrom rcptTo
  = (mxRecords <- Part_001.getMXs env domainName ;;
     Part_001.sendMessage_route env {| from := mailFrom; to := rcptTo |} mxRecords).
Proof.
  intros Hfrom Hto Hlit Hdom Hlabels. unfold Part_001.sendMessage.
  assert (Hpre : (if String.eqb mailFrom "<>" then ret None
                  else p <- lift (parse env mailFrom) ;; ret (Some p))
                 = ([], Ok (if String.eqb mailFrom "<>" then None
                            else match parse env mailFrom with
                                 | Ok p => Some p
                                 | Throw _ => None
                                 end))).
  { destruct (String.eqb_spec mailFrom "<>") as [E | E]; [reflexivity |].
    destruct Hfrom as [E' | [p Hp]]; [contradiction |].
    rewrite Hp. reflexivity. }
  rewrite Hpre, Hto. simpl. rewrite Hlit, Hdom.
  apply Nat.ltb_ge in Hlabels. rewrite Hlabels.
  destruct (Part_001.getMXs env domainName) as [t [mx | e]]; simpl; [| reflexivity].
  destruct (Part_001.sendMessage_route _ _ mx). reflexivity.
Qed.

(** [s.split(".")] has one piece more than [s] has dots. *)
Lemma split_length (sep : ascii) (s : string) :
  List.length (split sep s) = S (count_char sep s).
Proof.
  induction s as [| c s IH]; simpl; [reflexivity |].
  destruct (Ascii.eqb c sep); simpl.
  - now rewrite IH.
  - destruct (split sep s) as [| piece pieces]; simpl in *; [discriminate | exact IH].
Qed.

(** C7 as the specification states it fails: the sender is parsed before
    the recipient is looked at, so a call with an address-literal recipient
    and an unparsable sender ends with the parser's error, which has no
    response code. *)
Lemma sendMessage_unparsed_sender :
  ~ (forall (env : Env) (name mailFrom rcptTo : string) (to_parsed : Mailbox),
        parse env rcptTo = Ok to_parsed ->
        Part_001.truthy (AddressLiteral (domainPart to_parsed)) = true ->
        exists err,
          Part_001.sendMessage env name mailFrom rcptTo = ([], Throw err)
          /\ get_prop err "responseCode" = VNum 500).
Proof.
  intros H.
  destruct (H env_one_host "digilicious.com" "not an address" "nobody@[192.0.2.25]"
              _ eq_refl eq_refl) as [err [Hrun Hcode]].
  injection Hrun as Herr. subst err. discriminate Hcode.
Qed.

(** C7 (as amended).  With a sender that parses or is the null sender
    ["<>"]: a recipient whose domain part is an address literal is rejected
    with "Domain is an address literal", whatever its [DomainName] is (the
    literal check comes first); otherwise a recipient whose domain name has
    fewer than two labels is rejected with "Domain not fully qualified".
    Both errors carry response code 500 and the trace is empty: no DNS
    query, no connection. *)
Theorem sendMessage_rejects_before_network (env : Env)
    (name mailFrom rcptTo : string) (to_parsed : Mailbox) :
  (mailFrom = "<>" \/ exists p, parse env mailFrom = Ok p) ->
  parse env rcptTo = Ok to_parsed ->
  (Part_001.truthy (AddressLiteral (domainPart to_parsed)) = true ->
   exists err,
     Part_001.sendMessage env name mailFrom rcptTo = ([], Throw err)
     /\ get_prop err "response" = VStr "Domain is an address literal"
     /\ get_prop err "responseCode" = VNum 500)
  /\ (Part_001.truthy (AddressLiteral (domainPart to_parsed)) = false ->
      forall domainName,
        DomainName (domainPart to_parsed) = Some domainName ->
        List.length (split "." domainName) < 2 ->
        exists err,
          Part_001.sendMessage env name mailFrom rcptTo = ([], Throw err)
          /\ get_prop err "response" = VStr "Domain not fully qualified"
          /\ get_prop err "responseCode" = VNum 500).
Proof.
  intros Hfrom Hto.
  assert (Hpre : exists o,
             (if String.eqb mailFrom "<>" then ret None
              else p <- lift (parse env mailFrom) ;; ret (Some p))
             = ([], @Ok (option Mailbox) o)).
  { destruct (String.eqb_spec mailFrom "<>") as [E | E]; [eexists; reflexivity |].
    destruct Hfrom as [E' | [p Hp]]; [contradiction |].
    rewrite Hp. eexists. reflexivity. }
  destruct Hpre as [o Hpre].
  split.
  - intros Hlit. eexists. unfold Part_001.sendMessage.
    rewrite Hpre, Hto. simpl. rewrite Hlit.
    split; [reflexivity | split; reflexivity].
  - intros Hlit domainName Hdom Hlabels. eexists. unfold Part_001.sendMessage.
    rewrite Hpre, Hto. simpl. rewrite Hlit, Hdom.
    apply Nat.ltb_lt in Hlabels. rewrite Hlabels.
    split; [reflexivity | split; reflexivity].
Qed.

Lemma sendMessage_rejects_before_network_witness :
  (exists err,
      Part_001.sendMessage env_one_host "digilicious.com" "<>" "nobody@[192.0.2.25]"
      = ([], Throw err)
      /\ get_prop err "response" = VStr "Domain is an address literal"
      /\ get_prop err "responseCode" = VNum 500)
  /\ (exists err,
        Part_001.sendMessage env_one_host "digilicious.com"
                             "nobody@digilicious.com" "nobody@localhost"
        = ([], Throw err)
        /\ get_prop err "response" = VStr "Domain not fully qualified"
        /\ get_prop err "responseCode" = VNum 500).
Proof.
  split.
  - apply (proj1 (sendMessage_rejects_before_network
                    env_one_host "digilicious.com" "<>" "nobody@[192.0.2.25]"
                    {| domainPart := {| AddressLiteral := Some "[192.0.2.25]";
                                        DomainName := None |} |}
                    (or_introl eq_refl) eq_refl)).
    reflexivity.
  - apply (proj2 (sendMessage_rejects_before_network
                    env_one_host "digilicious.com"
                    "nobody@digilicious.com" "nobody@localhost"
                    {| domainPart := {| AddressLiteral := None;
                                        DomainName := Some "localhost" |} |}
                    (or_intror (ex_intro _ _ eq_refl)) eq_refl)
             eq_refl "localhost" eq_refl).
    simpl. lia.
Defined.

(** ** C1, C4: the host loop *)

Lemma obj_set_get (k : string) (v : value) (props : list (string * value)) :
  assoc k (obj_set k v props) = v.
Proof.
  induction props as [| [k' v'] rest IH]; simpl.
  - now rewrite String.eqb_refl.
  - destruct (String.eqb k k') eqn:E; simpl; rewrite E; [reflexivity | exact IH].
Qed.

(** A failing session rejects the wrapped attempt with the session's error,
    after events that open no further connection. *)
Lemma wrapErrorEvent_fails (env : Env) (i : nat) (host : string)
    (envelope : Envelope) (e : value) :
  session_error (session env i host) = Some e ->
  exists t, wrapErrorEvent env i host envelope = (t, Throw e)
            /\ attempted t = [].
Proof.
  unfold session_error, wrapErrorEvent. intros H.
  destruct (connect (session env i host)) as [u | e1 | e1].
  - destruct (send (session env i host)) as [sent | e2 | e2];
      inversion H; subst; eexists; split; reflexivity.
  - inversion H; subst. eexists; split; reflexivity.
  - inversion H; subst. eexists; split; reflexivity.
Qed.

Lemma wrapErrorEvent_succeeds (env : Env) (i : nat) (host : string)
    (envelope : Envelope) :
  session_error (session env i host) = None ->
  exists t sent,
    wrapErrorEvent env i host envelope
    = (t, Ok (obj_set "host" (VStr host) sent))
    /\ attempted t = [].
Proof.
  unfold session_error, wrapErrorEvent. intros H.
  destruct (connect (session env i host)) as [u | e1 | e1]; try discriminate.
  destruct (send (session env i host)) as [sent | e2 | e2]; try discriminate.
  eexists; exists sent; split; reflexivity.
Qed.

Lemma attempted_app (t t' : list event) :
  attempted (t ++ t') = attempted t ++ attempted t'.
Proof.
  induction t as [| ev t IH]; simpl; [reflexivity |].
  destruct ev; simpl; now rewrite IH.
Qed.

(** One turn of each loop, from how the wrapped attempt settled. *)
Lemma sendMessage_loop_accepted (env : Env) (envelope : Envelope) (i : nat)
    (r : MXRecord) (rest : list MXRecord) (t : list event)
    (result : list (string * value)) :
  wrapErrorEvent env i (exchange r) envelope = (t, Ok result) ->
  Part_001.sendMessage_loop env envelope i (r :: rest)
  = (EvNewConnection (exchange r) :: t ++ [EvQuit (exchange r)], Ok result).
Proof. intros Hw. simpl. rewrite Hw. simpl. now rewrite app_nil_r. Qed.

Lemma sendMessage_loop_rejected (env : Env) (envelope : Envelope) (i : nat)
    (r : MXRecord) (rest : list MXRecord) (t : list event) (e : value) :
  wrapErrorEvent env i (exchange r) envelope = (t, Throw e) ->
  Part_001.sendMessage_loop env envelope i (r :: rest)
  = (EvNewConnection (exchange r)
       :: t ++ [EvLog LError (JSON_stringify env e); EvQuit (exchange r)],
     Throw (Part_001.failure "Delivery attempt failed" "Delivery attempt failed")).
Proof. intros Hw. simpl. rewrite Hw. reflexivity. Qed.

Lemma sendEmail_loop_rejected (env : Env) (envelope : Envelope) (i : nat)
    (r : MXRecord) (rest : list MXRecord) (t : list event) (e : value) :
  wrapErrorEvent env i (exchange r) envelope = (t, Throw e) ->
  Part_000.sendEmail_loop env envelope i (r :: rest)
  = (EvNewConnection (exchange r)
       :: t ++ [EvLog LDebug (JSON_stringify env e); EvQuit (exchange r)]
            ++ trace (Part_000.sendEmail_loop env envelope (S i) rest),
     outcome (Part_000.sendEmail_loop env envelope (S i) rest)).
Proof.
  intros Hw. simpl. rewrite Hw. simpl.
  destruct (Part_000.sendEmail_loop env envelope (S i) rest) as [t' r'].
  simpl. now rewrite <- app_assoc.
Qed.

(** The first successful send ends the loop of [sendMessage] with a result
    whose [host] is that exchanger. *)
Lemma sendMessage_loop_first_accepts (env : Env) (envelope : Envelope)
    (i : nat) (r : MXRecord) (rest : list MXRecord) :
  session_error (session env i (exchange r)) = None ->
  exists result,
    outcome (Part_001.sendMessage_loop env envelope i (r :: rest)) = Ok result
    /\ assoc "host" result = VStr (exchange r)
    /\ attempted (trace (Part_001.sendMessage_loop env envelope i (r :: rest)))
       = [exchange r].
Proof.
  intros H.
  destruct (wrapErrorEvent_succeeds env i (exchange r) envelope H)
    as [t [sent [Hw Ht]]].
  exists (obj_set "host" (VStr (exchange r)) sent).
  rewrite (sendMessage_loop_accepted _ _ _ _ _ _ _ Hw). simpl.
  rewrite obj_set_get, attempted_app, Ht. repeat split.
Qed.


(** In [sendEmail] a failed attempt only moves the loop on to the next
    record. *)
Lemma sendEmail_loop_advances (env : Env) (envelope : Envelope)
    (i : nat) (r : MXRecord) (rest : list MXRecord) (e : value) :
  session_error (session env i (exchange r)) = Some e ->
  outcome (Part_000.sendEmail_loop env envelope i (r :: rest))
  = outcome (Part_000.sendEmail_loop env envelope (S i) rest)
  /\ attempted (trace (Part_000.sendEmail_loop env envelope i (r :: rest)))
     = exchange r
         :: attempted (trace (Part_000.sendEmail_loop env envelope (S i) rest)).
Proof.
  intros H.
  destruct (wrapErrorEvent_fails env i (exchange r) envelope e H) as [t [Hw Ht]].
  rewrite (sendEmail_loop_rejected _ _ _ _ _ _ _ Hw). simpl.
  rewrite !attempted_app, Ht. split; reflexivity.
Qed.

(** C1.  Two exchangers, the first refusing connections and the second
    accepting mail: [sendMessage] opens a connection to the first one only
    and throws "Delivery attempt failed", where the loop of [sendEmail] goes
    on and returns the result of the second, with [host] set to it. *)
Theorem sendMessage_does_not_try_next_host :
  session_error (session env_two_hosts 0 "mx1.example.com")
  = Some (refused "mx1.example.com")
  /\ session_error (session env_two_hosts 1 "mx2.example.com") = None
  /\ outcome (Part_001.sendMessage_route env_two_hosts example_envelope two_hosts)
     = Throw (Part_001.failure "Delivery attempt failed" "Delivery attempt failed")
  /\ attempted
       (trace (Part_001.sendMessage_route env_two_hosts example_envelope two_hosts))
     = ["mx1.example.com"]
  /\ (exists result,
         outcome (Part_000.sendEmail_loop env_two_hosts example_envelope 0 two_hosts)
         = Ok result
         /\ assoc "host" result = VStr "mx2.example.com")
  /\ attempted
       (trace (Part_000.sendEmail_loop env_two_hosts example_envelope 0 two_hosts))
     = ["mx1.example.com"; "mx2.example.com"].
Proof.
  repeat split.
  eexists. split; reflexivity.
Qed.





(** ** C8: the order of the resolved route *)

Lemma baseMap_values (rnd : nat -> Z) (i : nat) (mx : list MXRecord) :
  map item_value (baseMap rnd i mx) = mx.
Proof.
  revert i. induction mx as [| r mx IH]; intros i; simpl; [reflexivity |].
  now rewrite IH.
Qed.

Lemma baseMap_well_keyed (rnd : nat -> Z) (i : nat) (mx : list MXRecord) :
  Forall well_keyed (baseMap rnd i mx).
Proof.
  revert i. induction mx as [| r mx IH]; intros i; simpl; constructor.
  - exists (rnd i). reflexivity.
  - apply IH.
Qed.

Lemma insert_sorted_perm (x : keyed) (l : list keyed) :
  Permutation (x :: l) (insert_sorted x l).
Proof.
  induction l as [| y l IH]; simpl; [reflexivity |].
  destruct (compareMultiple x y <=? 0)%Z; [reflexivity |].
  rewrite perm_swap. now apply perm_skip.
Qed.

Lemma Array_sort_perm (l : list keyed) : Permutation l (Array_sort l).
Proof.
  induction l as [| x l IH]; simpl; [constructor |].
  rewrite <- insert_sorted_perm. now apply perm_skip.
Qed.

(** What [compareMultiple] says about the first criterion. *)
Lemma compareMultiple_le (x y : keyed) :
  well_keyed x -> well_keyed y ->
  (compareMultiple x y <= 0)%Z -> key_le x y.
Proof.
  intros [rx Hx] [ry Hy]. unfold compareMultiple, key_le, by_priority.
  rewrite Hx, Hy. simpl. unfold compareAscending.
  destruct (Z.gtb_spec (priority (item_value x)) (priority (item_value y)));
    simpl; [lia |].
  intros _. lia.
Qed.

Lemma compareMultiple_gt (x y : keyed) :
  well_keyed x -> well_keyed y ->
  (0 < compareMultiple x y)%Z -> key_le y x.
Proof.
  intros [rx Hx] [ry Hy]. unfold compareMultiple, key_le, by_priority.
  rewrite Hx, Hy. simpl. unfold compareAscending.
  destruct (Z.gtb_spec (priority (item_value x)) (priority (item_value y)));
    simpl; [lia |].
  destruct (Z.ltb_spec (priority (item_value x)) (priority (item_value y)));
    simpl; [lia |].
  intros _. lia.
Qed.

Lemma insert_sorted_Sorted (x : keyed) (l : list keyed) :
  well_keyed x -> Forall well_keyed l ->
  Sorted key_le l -> Sorted key_le (insert_sorted x l).
Proof.
  intros Hx Hl Hs. induction l as [| y l IH]; simpl.
  - repeat constructor.
  - inversion Hl as [| ? ? Hy Hl']; subst.
    apply Sorted_inv in Hs. destruct Hs as [Hs Hhd].
    destruct (Z.leb_spec (compareMultiple x y) 0) as [Hc | Hc].
    + constructor; [constructor; assumption |].
      constructor. now apply compareMultiple_le.
    + constructor; [now apply IH |].
      destruct l as [| z l]; simpl.
      * constructor. now apply compareMultiple_gt.
      * destruct (compareMultiple x z <=? 0)%Z; constructor.
        -- now apply compareMultiple_gt.
        -- now apply HdRel_inv in Hhd.
Qed.

Lemma Array_sort_Sorted (l : list keyed) :
  Forall well_keyed l -> Sorted key_le (Array_sort l).
Proof.
  induction l as [| x l IH]; intros Hl; simpl; [constructor |].
  inversion Hl as [| ? ? Hx Hl']; subst.
  apply insert_sorted_Sorted; [assumption | | now apply IH].
  eapply Permutation_Forall; [apply Array_sort_perm | assumption].
Qed.

Lemma key_le_trans (a b c : keyed) : key_le a b -> key_le b c -> key_le a c.
Proof. unfold key_le, by_priority. lia. Qed.

Lemma StronglySorted_values (l : list keyed) :
  StronglySorted key_le l -> StronglySorted by_priority (map item_value l).
Proof.
  induction 1 as [| a l Hs IH Hall]; simpl; constructor; [assumption |].
  apply Forall_map. exact Hall.
Qed.

Lemma sortBy_perm (rnd : nat -> Z) (mx : list MXRecord) :
  Permutation mx (sortBy rnd mx).
Proof.
  unfold sortBy. rewrite <- (baseMap_values rnd 0 mx) at 1.
  apply Permutation_map, Array_sort_perm.
Qed.

Lemma sortBy_sorted (rnd : nat -> Z) (mx : list MXRecord) :
  StronglySorted by_priority (sortBy rnd mx).
Proof.
  unfold sortBy. apply StronglySorted_values.
  apply Sorted_StronglySorted; [exact key_le_trans |].
  apply Array_sort_Sorted, baseMap_well_keyed.
Qed.

Lemma sortBy_cons_nonempty (rnd : nat -> Z) (r : MXRecord) (mx : list MXRecord) :
  sortBy rnd (r :: mx) <> [].
Proof.
  intros H. apply (Permutation_nil_cons (l := mx) (x := r)).
  rewrite <- H. symmetry. apply sortBy_perm.
Qed.

(** X21.  [getMXs] never resolves a domain to the empty route: whenever the
    MX lookup gives no record, the result is the implicit route or an
    error thrown by the fallback. *)
Lemma getMXs_never_empty (env : Env) (domain : string) :
  outcome (Part_001.getMXs env domain) <> Ok [].
Proof.
  unfold Part_001.getMXs.
  pose proof (implicitMX_outcomes env domain) as Hi.
  destruct (Part_001.implicitMX env domain) as [ti ri].
  unfold outcome in Hi. simpl in Hi.
  destruct (resolveMx env domain) as [[| r mx] | e]; simpl.
  - destruct Hi as [Hi | [e4 [e6 Hi]]]; subst ri; simpl; discriminate.
  - intros H. injection H as H. exact (sortBy_cons_nonempty _ _ _ H).
  - destruct (instanceOfNodeError e); [destruct (no_data e) |]; simpl;
      try discriminate.
    destruct Hi as [Hi | [e4 [e6 Hi]]]; subst ri; simpl; discriminate.
Qed.

(** C8.  When the MX lookup answers with at least one record, [getMXs]
    returns a permutation of the answer that is sorted by non-decreasing
    priority.  The order inside a priority class follows the draws of
    [Math.random]: two runs on the same answer can return different routes. *)
Theorem getMXs_sorted_by_priority (env : Env) (domain : string)
    (mx : list MXRecord) :
  resolveMx env domain = Ok mx ->
  mx <> [] ->
  (exists route,
      Part_001.getMXs env domain = ([EvQueryMX domain], Ok route)
      /\ Permutation mx route
      /\ StronglySorted by_priority route)
  /\ (exists draws draws',
        resolveMx (env_tied draws) domain = resolveMx (env_tied draws') domain
        /\ outcome (Part_001.getMXs (env_tied draws) domain)
           <> outcome (Part_001.getMXs (env_tied draws') domain)).
Proof.
  intros Hmx Hne. split.
  - exists (sortBy (random env) mx). split; [| split].
    + unfold Part_001.getMXs. rewrite Hmx.
      destruct mx as [| r mx]; [contradiction | reflexivity].
    + apply sortBy_perm.
    + apply sortBy_sorted.
  - exists [1; 2]%Z, [2; 1]%Z. split; [reflexivity | discriminate].
Qed.

Lemma getMXs_sorted_by_priority_witness :
  (exists route,
      Part_001.getMXs env_two_hosts "example.com"
      = ([EvQueryMX "example.com"], Ok route)
      /\ Permutation (rev two_hosts) route
      /\ StronglySorted by_priority route)
  /\ (exists draws draws',
        resolveMx (env_tied draws) "example.com"
        = resolveMx (env_tied draws') "example.com"
        /\ outcome (Part_001.getMXs (env_tied draws) "example.com")
           <> outcome (Part_001.getMXs (env_tied draws') "example.com")).
Proof.
  apply (getMXs_sorted_by_priority env_two_hosts "example.com" (rev two_hosts)).
  - reflexivity.
  - discriminate.
Defined.

(** ** The matcher *)

Lemma append_nil_r (s : string) : (s ++ "")%string = s.
Proof. induction s as [| c s IH]; simpl; [reflexivity | now rewrite IH]. Qed.

Lemma append_assoc (a b c : string) :
  ((a ++ b) ++ c)%string = (a ++ (b ++ c))%string.
Proof. induction a as [| x a IH]; simpl; [reflexivity | now rewrite IH]. Qed.

Lemma rev_string_push (s : string) (taken : list ascii) (tail : string) :
  rev_string (push s taken) tail = rev_string taken (s ++ tail)%string.
Proof.
  revert taken. induction s as [| x s IH]; intros taken; simpl.
  - reflexivity.
  - now rewrite IH.
Qed.

Lemma rep_unfold (cls : ascii -> bool) (lo : nat) (hi : option nat)
    (capture : bool) (k : string -> option (list string))
    (s : string) (n : nat) (taken : list ascii) :
  rep cls lo hi capture k s n taken
  = let stop :=
      if (lo <=? n)%nat then
        match k s with
        | Some caps =>
            Some (if capture then rev_string taken EmptyString :: caps else caps)
        | None => None
        end
      else None in
    match s with
    | String x s' =>
        if cls x && below n hi then
          match rep cls lo hi capture k s' (S n) (x :: taken) with
          | Some caps => Some caps
          | None => stop
          end
        else stop
    | EmptyString => stop
    end.
Proof. destruct s; reflexivity. Qed.

(** A repetition followed by something it cannot eat takes the whole run
    when the rest of the pattern then succeeds. *)
Lemma rep_greedy (cls : ascii -> bool) (lo : nat) (hi : option nat)
    (capture : bool) (k : string -> option (list string))
    (s rest : string) (caps : list string) :
  forall (n : nat) (taken : list ascii),
    all_chars cls s = true ->
    fits hi (n + String.length s) ->
    cannot_extend cls hi (n + String.length s) rest = true ->
    lo <= n + String.length s ->
    k rest = Some caps ->
    rep cls lo hi capture k (s ++ rest)%string n taken
    = Some (if capture then rev_string (push s taken) EmptyString :: caps
            else caps).
Proof.
  induction s as [| x s IH]; intros n taken Hall Hfit Hstop Hlo Hk.
  - simpl in *. rewrite Nat.add_0_r in *. rewrite rep_unfold. cbv zeta.
    apply Nat.leb_le in Hlo. rewrite Hlo, Hk.
    destruct rest as [| y rest]; [reflexivity |].
    simpl in Hstop. apply negb_true_iff in Hstop. rewrite Hstop. reflexivity.
  - simpl in Hall. apply andb_true_iff in Hall. destruct Hall as [Hx Hall].
    simpl String.length in *. rewrite Nat.add_succ_r in *.
    simpl append. rewrite rep_unfold. cbv zeta. rewrite Hx.
    assert (Hb : below n hi = true).
    { destruct hi as [h |]; simpl in *; [apply Nat.ltb_lt; lia | reflexivity]. }
    rewrite Hb. simpl andb. cbv iota.
    rewrite (IH (S n) (x :: taken)); [reflexivity | assumption ..].
Qed.

(** Conversely a successful repetition has split its input. *)
Lemma rep_sound (cls : ascii -> bool) (lo : nat) (hi : option nat)
    (capture : bool) (k : string -> option (list string)) (s0 : string) :
  forall (n : nat) (taken : list ascii) (caps : list string),
    rep cls lo hi capture k s0 n taken = Some caps ->
    exists s rest, s0 = (s ++ rest)%string /\ k rest <> None.
Proof.
  induction s0 as [| x s0 IH]; intros n taken caps H; rewrite rep_unfold in H;
    cbv zeta in H.
  - exists EmptyString, EmptyString. split; [reflexivity |].
    destruct (lo <=? n)%nat; [| discriminate].
    destruct (k EmptyString); [discriminate | discriminate].
  - assert (Hstop :
      (if (lo <=? n)%nat then
         match k (String x s0) with
         | Some caps => Some (if capture then rev_string taken EmptyString :: caps
                              else caps)
         | None => None
         end
       else None) = Some caps ->
      exists s rest, String x s0 = (s ++ rest)%string /\ k rest <> None).
    { intros Hs. exists EmptyString, (String x s0). split; [reflexivity |].
      destruct (lo <=? n)%nat; [| discriminate].
      destruct (k (String x s0)); [discriminate | discriminate]. }
    destruct (cls x && below n hi); [| exact (Hstop H)].
    destruct (rep cls lo hi capture k s0 (S n) (x :: taken)) as [caps' |] eqn:Hr;
      [| exact (Hstop H)].
    destruct (IH _ _ _ Hr) as [s [rest [Hs Hk]]].
    exists (String x s), rest. split; [simpl; now rewrite Hs | exact Hk].
Qed.

Lemma exec_unfold (re : regex) (s : string) :
  exec re s
  = match match_here (ignoreCase re) (items re) s with
    | Some caps => Some caps
    | None =>
        match s with
        | String _ s' => exec re s'
        | EmptyString => None
        end
    end.
Proof. destruct s; reflexivity. Qed.

Lemma exec_here (re : regex) (s : string) (caps : list string) :
  match_here (ignoreCase re) (items re) s = Some caps ->
  exec re s = Some caps.
Proof. intros H. rewrite exec_unfold, H. reflexivity. Qed.

(** A match somewhere makes [exec] succeed (at that place or before). *)
Lemma exec_finds (re : regex) (pre s : string) :
  match_here (ignoreCase re) (items re) s <> None ->
  exec re (pre ++ s)%string <> None.
Proof.
  intros H. induction pre as [| c pre IH]; simpl append; rewrite exec_unfold.
  - destruct (match_here (ignoreCase re) (items re) s); [discriminate | contradiction].
  - destruct (match_here (ignoreCase re) (items re) (String c (pre ++ s)));
      [discriminate | exact IH].
Qed.

(** A successful [exec] matched at some suffix. *)
Lemma exec_sound (re : regex) (l : string) (caps : list string) :
  exec re l = Some caps ->
  exists pre s, l = (pre ++ s)%string
                /\ match_here (ignoreCase re) (items re) s = Some caps.
Proof.
  induction l as [| c l IH]; rewrite exec_unfold; intros H.
  - exists EmptyString, EmptyString. split; [reflexivity |].
    destruct (match_here (ignoreCase re) (items re) EmptyString);
      [exact H | discriminate].
  - destruct (match_here (ignoreCase re) (items re) (String c l)) as [caps' |] eqn:Hm.
    + exists EmptyString, (String c l). split; [reflexivity |].
      rewrite Hm. exact H.
    + destruct (IH H) as [pre [s [Hl Hs]]].
      exists (String c pre), s. split; [simpl; now rewrite Hl | exact Hs].
Qed.

(** Where the pattern starts with a literal, [exec] steps over every
    character that is not that literal. *)
Lemma exec_skip (re : regex) (c0 : ascii) (pat : list item) (pre s : string) :
  items re = Lit c0 :: pat ->
  all_chars (fun c => negb (chr_eq (ignoreCase re) c0 c)) pre = true ->
  exec re (pre ++ s)%string = exec re s.
Proof.
  intros Hre. induction pre as [| c pre IH]; intros Hall; simpl append.
  - reflexivity.
  - simpl in Hall. apply andb_true_iff in Hall. destruct Hall as [Hc Hall].
    rewrite exec_unfold, Hre. simpl match_here.
    apply negb_true_iff in Hc. rewrite Hc. now apply IH.
Qed.

(** ** C10: [addressFromLiteral] *)

Lemma no_rbracket (s : string) :
  count_char "]" s = 0 -> all_chars not_rbracket s = true.
Proof.
  induction s as [| c s IH]; simpl; [reflexivity |].
  unfold not_rbracket at 1. destruct (Ascii.eqb c "]"); simpl; [discriminate |].
  exact IH.
Qed.

Lemma lower_lbracket (c : ascii) : lower c = "["%char -> c = "["%char.
Proof.
  destruct c as [[] [] [] [] [] [] [] []]; vm_compute; intros H;
    solve [reflexivity | discriminate H].
Qed.

Lemma no_lbracket (ic : bool) (s : string) :
  count_char "[" s = 0 ->
  all_chars (fun c => negb (chr_eq ic "[" c)) s = true.
Proof.
  induction s as [| c s IH]; simpl; [reflexivity |].
  destruct (Ascii.eqb_spec c "[") as [E | E]; simpl; [discriminate |].
  intros H. rewrite (IH H), andb_true_r. apply negb_true_iff.
  unfold chr_eq. destruct ic.
  - apply Ascii.eqb_neq. intros Hl. apply E, lower_lbracket.
    symmetry. exact Hl.
  - apply Ascii.eqb_neq. intros Hl. apply E. symmetry. exact Hl.
Qed.

Lemma bracket_tail (ic : bool) (s post : string) :
  count_char "]" s = 0 ->
  rep not_rbracket 0 None true (match_here ic [Lit "]"])
      (s ++ String "]" post)%string 0 []
  = Some [s].
Proof.
  intros Hs.
  rewrite (rep_greedy not_rbracket 0 None true _ s (String "]" post) []).
  - rewrite rev_string_push. simpl. now rewrite append_nil_r.
  - now apply no_rbracket.
  - exact I.
  - reflexivity.
  - lia.
  - destruct ic; reflexivity.
Qed.

Lemma match_here_lit (ic : bool) (c x : ascii) (pat : list item) (s : string) :
  match_here ic (Lit c :: pat) (String x s)
  = if chr_eq ic c x then match_here ic pat s else None.
Proof. reflexivity. Qed.

Lemma match_here_rep (ic : bool) (cls : ascii -> bool) (lo : nat)
    (hi : option nat) (capture : bool) (pat : list item) (s : string) :
  match_here ic (Rep cls lo hi capture :: pat) s
  = rep cls lo hi capture (match_here ic pat) s 0 [].
Proof. reflexivity. Qed.

Lemma chr_eq_lower (c x : ascii) :
  lower x = lower c -> chr_eq true c x = true.
Proof. intros H. unfold chr_eq. rewrite H. apply Ascii.eqb_refl. Qed.

Lemma m4_here (s post : string) :
  count_char "]" s = 0 ->
  match_here false (items Part_001.m4_re) ("[" ++ s ++ "]" ++ post)%string
  = Some [s].
Proof.
  intros Hs.
  change (items Part_001.m4_re)
    with [Lit "["; Rep not_rbracket 0 None true; Lit "]"].
  change ("[" ++ s ++ "]" ++ post)%string with (String "[" (s ++ String "]" post)).
  rewrite match_here_lit. change (chr_eq false "[" "[") with true. cbv iota.
  rewrite match_here_rep. now apply bracket_tail.
Qed.

Lemma m6_here (tag s post : string) :
  toLowerCase tag = "ipv6:" ->
  count_char "]" s = 0 ->
  match_here true (items Part_001.m6_re) ("[" ++ tag ++ s ++ "]" ++ post)%string
  = Some [s].
Proof.
  intros Htag Hs.
  destruct tag as [| t1 [| t2 [| t3 [| t4 [| t5 [| t6 tag]]]]]]; try discriminate.
  simpl in Htag. injection Htag as H1 H2 H3 H4 H5.
  change (items Part_001.m6_re)
    with [Lit "["; Lit "I"; Lit "P"; Lit "v"; Lit "6"; Lit ":";
          Rep not_rbracket 0 None true; Lit "]"].
  change ("[" ++ String t1 (String t2 (String t3 (String t4 (String t5 "")))) ++ s ++ "]" ++ post)%string
    with (String "[" (String t1 (String t2 (String t3 (String t4 (String t5
            (s ++ String "]" post))))))).
  rewrite match_here_lit, (chr_eq_lower "[" "[" eq_refl).
  rewrite match_here_lit, (chr_eq_lower "I" t1 H1).
  rewrite match_here_lit, (chr_eq_lower "P" t2 H2).
  rewrite match_here_lit, (chr_eq_lower "v" t3 H3).
  rewrite match_here_lit, (chr_eq_lower "6" t4 H4).
  rewrite match_here_lit, (chr_eq_lower ":" t5 H5).
  rewrite match_here_rep. now apply bracket_tail.
Qed.

Lemma first_rbracket (s post : string) :
  exists s' post',
    count_char "]" s' = 0
    /\ (s ++ "]" ++ post)%string = (s' ++ "]" ++ post')%string.
Proof.
  induction s as [| c s [s' [post' [Hc He]]]].
  - exists EmptyString, post. split; reflexivity.
  - destruct (Ascii.eqb_spec c "]") as [E | E].
    + subst c. exists EmptyString, (s ++ "]" ++ post)%string. split; reflexivity.
    + exists (String c s'), post'. split.
      * simpl. apply Ascii.eqb_neq in E. now rewrite E.
      * simpl. simpl in He. now rewrite He.
Qed.

Lemma bracketed_matches (literal : string) :
  bracketed literal -> exec Part_001.m4_re literal <> None.
Proof.
  intros [pre [s [post Hl]]]. subst literal.
  destruct (first_rbracket s post) as [s' [post' [Hc He]]].
  change (pre ++ "[" ++ s ++ "]" ++ post)%string
    with (pre ++ String "[" (s ++ "]" ++ post))%string.
  rewrite He. apply exec_finds.
  change (match_here false (items Part_001.m4_re) ("[" ++ s' ++ "]" ++ post')%string
          <> None).
  rewrite (m4_here _ _ Hc). discriminate.
Qed.

Lemma lit_sound (ic : bool) (c : ascii) (pat : list item) (s : string)
    (caps : list string) :
  match_here ic (Lit c :: pat) s = Some caps ->
  exists x s', s = String x s' /\ chr_eq ic c x = true
               /\ match_here ic pat s' = Some caps.
Proof.
  simpl. destruct s as [| x s']; [discriminate |].
  destruct (chr_eq ic c x) eqn:E; [| discriminate].
  intros H. exists x, s'. repeat split; assumption.
Qed.

Lemma bracket_tail_sound (ic : bool) (s0 : string) (caps : list string) :
  match_here ic [Rep not_rbracket 0 None true; Lit "]"] s0 = Some caps ->
  exists s post, s0 = (s ++ "]" ++ post)%string.
Proof.
  simpl. intros H. apply rep_sound in H. destruct H as [s [rest [Hs Hk]]].
  destruct rest as [| x rest]; [contradiction Hk; reflexivity |].
  destruct (chr_eq ic "]" x) eqn:E; [| contradiction Hk; reflexivity].
  assert (x = "]"%char).
  { unfold chr_eq in E. destruct ic.
    - apply Ascii.eqb_eq in E.
      destruct x as [[] [] [] [] [] [] [] []]; vm_compute in E;
        solve [reflexivity | discriminate E].
    - apply Ascii.eqb_eq in E. now symmetry. }
  subst x. exists s, rest. exact Hs.
Qed.

Lemma m4_sound (literal : string) (caps : list string) :
  exec Part_001.m4_re literal = Some caps -> bracketed literal.
Proof.
  intros H. apply exec_sound in H. destruct H as [pre [s0 [Hl Hm]]].
  apply lit_sound in Hm. destruct Hm as [x [s1 [Hs0 [Hx Hm]]]].
  apply Ascii.eqb_eq in Hx. subst x.
  apply bracket_tail_sound in Hm. destruct Hm as [s [post Hs1]].
  exists pre, s, post. now rewrite Hl, Hs0, Hs1.
Qed.

Lemma m6_sound (literal : string) (caps : list string) :
  exec Part_001.m6_re literal = Some caps -> bracketed literal.
Proof.
  intros H. apply exec_sound in H. destruct H as [pre [s0 [Hl Hm]]].
  change (items Part_001.m6_re)
    with [Lit "["; Lit "I"; Lit "P"; Lit "v"; Lit "6"; Lit ":";
          Rep not_rbracket 0 None true; Lit "]"] in Hm.
  apply lit_sound in Hm. destruct Hm as [x [s1 [Hs0 [Hx Hm]]]].
  apply Ascii.eqb_eq in Hx. symmetry in Hx. apply lower_lbracket in Hx. subst x.
  apply lit_sound in Hm. destruct Hm as [x1 [s2 [Hs1 [_ Hm]]]].
  apply lit_sound in Hm. destruct Hm as [x2 [s3 [Hs2 [_ Hm]]]].
  apply lit_sound in Hm. destruct Hm as [x3 [s4 [Hs3 [_ Hm]]]].
  apply lit_sound in Hm. destruct Hm as [x4 [s5 [Hs4 [_ Hm]]]].
  apply lit_sound in Hm. destruct Hm as [x5 [s6 [Hs5 [_ Hm]]]].
  apply bracket_tail_sound in Hm. destruct Hm as [s [post Hs6]].
  exists pre,
    (String x1 (String x2 (String x3 (String x4 (String x5 s))))), post.
  subst. reflexivity.
Qed.

Lemma addressFromLiteral_first_bracket (pre s post : string) :
  count_char "[" pre = 0 ->
  count_char "]" s = 0 ->
  exec Part_001.m6_re (pre ++ "[" ++ s ++ "]" ++ post)%string = None ->
  Part_001.addressFromLiteral (pre ++ "[" ++ s ++ "]" ++ post)%string = Ok s.
Proof.
  intros Hpre Hs H6. unfold Part_001.addressFromLiteral. rewrite H6.
  rewrite (exec_skip Part_001.m4_re "[" _ pre _ eq_refl (no_lbracket false pre Hpre)).
  rewrite (exec_here Part_001.m4_re _ _ (m4_here s post Hs)). reflexivity.
Qed.

Lemma addressFromLiteral_IPv6_tag (tag pre s post : string) :
  toLowerCase tag = "ipv6:" ->
  count_char "[" pre = 0 ->
  count_char "]" s = 0 ->
  Part_001.addressFromLiteral (pre ++ "[" ++ tag ++ s ++ "]" ++ post)%string = Ok s.
Proof.
  intros Htag Hpre Hs. unfold Part_001.addressFromLiteral.
  rewrite (exec_skip Part_001.m6_re "[" _ pre _ eq_refl (no_lbracket true pre Hpre)).
  rewrite (exec_here Part_001.m6_re _ _ (m6_here tag s post Htag Hs)). reflexivity.
Qed.

Lemma addressFromLiteral_throws_iff (literal : string) :
  (exists e, Part_001.addressFromLiteral literal = Throw e) <-> ~ bracketed literal.
Proof.
  unfold Part_001.addressFromLiteral. split.
  - intros [e H] Hb. apply bracketed_matches in Hb.
    destruct (exec Part_001.m6_re literal); [discriminate |].
    destruct (exec Part_001.m4_re literal); [discriminate | contradiction].
  - intros Hb.
    destruct (exec Part_001.m6_re literal) as [m6 |] eqn:H6.
    + exfalso. apply Hb. exact (m6_sound _ _ H6).
    + destruct (exec Part_001.m4_re literal) as [m4 |] eqn:H4.
      * exfalso. apply Hb. exact (m4_sound _ _ H4).
      * eexists. reflexivity.
Qed.

(** C10 as the specification states it fails: ["[a][b]"] contains the
    bracketed substring ["[b]"] and has no ["[IPv6:"] form, and the function
    returns ["a"]. *)
Lemma addressFromLiteral_returns_leftmost :
  ~ (forall pre s post : string,
        count_char "]" s = 0 ->
        exec Part_001.m6_re (pre ++ "[" ++ s ++ "]" ++ post)%string = None ->
        Part_001.addressFromLiteral (pre ++ "[" ++ s ++ "]" ++ post)%string = Ok s).
Proof.
  intros H. specialize (H "[a]" "b" "" eq_refl eq_refl). discriminate H.
Qed.

(** C10 (as amended).  [addressFromLiteral] neither validates nor anchors:
    when the input has no ["[IPv6:...]"] form, it returns the text between
    the first ["["] and the next ["]"], whatever that text is and whatever
    surrounds it (["not.an.ip"] for ["[not.an.ip]"]); the ["IPv6:"] tag is
    matched in any letter case; and it throws exactly when the input
    contains no bracketed substring. *)
Theorem addressFromLiteral_unvalidated (pre s post : string) :
  count_char "[" pre = 0 ->
  count_char "]" s = 0 ->
  (exec Part_001.m6_re (pre ++ "[" ++ s ++ "]" ++ post)%string = None ->
   Part_001.addressFromLiteral (pre ++ "[" ++ s ++ "]" ++ post)%string = Ok s)
  /\ Part_001.addressFromLiteral "[not.an.ip]" = Ok "not.an.ip"
  /\ (forall tag, toLowerCase tag = "ipv6:" ->
        Part_001.addressFromLiteral (pre ++ "[" ++ tag ++ s ++ "]" ++ post)%string
        = Ok s)
  /\ (forall literal,
        (exists e, Part_001.addressFromLiteral literal = Throw e)
        <-> ~ bracketed literal).
Proof.
  intros Hpre Hs. split; [| split; [| split]].
  - now apply addressFromLiteral_first_bracket.
  - reflexivity.
  - intros tag Htag. now apply addressFromLiteral_IPv6_tag.
  - exact addressFromLiteral_throws_iff.
Qed.

Lemma addressFromLiteral_unvalidated_witness :
  Part_001.addressFromLiteral "to <user@[not an ip]>" = Ok "not an ip"
  /\ Part_001.addressFromLiteral "to <user@[ipV6:not an ip]>" = Ok "not an ip".
Proof.
  destruct (addressFromLiteral_unvalidated "to <user@" "not an ip" ">"
              eq_refl eq_refl) as [H4 [_ [H6 _]]].
  split.
  - apply H4. reflexivity.
  - apply (H6 "ipV6:"). reflexivity.
Defined.

(** ** C9: [isPrivate] *)

Lemma is_digit_cases (c : ascii) :
  is_digit c = true ->
  In c ["0"; "1"; "2"; "3"; "4"; "5"; "6"; "7"; "8"; "9"]%char.
Proof.
  destruct c as [[] [] [] [] [] [] [] []]; vm_compute; intros H;
    try discriminate H; tauto.
Qed.

Lemma in_range_digit (lo hi c : ascii) :
  is_digit lo = true -> is_digit hi = true ->
  in_range lo hi c = true -> is_digit c = true.
Proof.
  unfold is_digit, in_range. cbv zeta.
  rewrite !andb_true_iff, !Nat.leb_le. lia.
Qed.

Lemma is_octet_digits (a : string) :
  is_octet a = true ->
  all_chars is_digit a = true /\ 1 <= String.length a <= 3.
Proof.
  destruct a as [| c1 [| c2 [| c3 [| c4 a]]]];
    cbn [is_octet all_chars String.length]; try discriminate.
  - intros H. rewrite H. split; [reflexivity | lia].
  - rewrite andb_true_iff. intros [H1 H2].
    apply (in_range_digit "1" "9") in H1; [| reflexivity ..].
    rewrite H1, H2. split; [reflexivity | lia].
  - rewrite !orb_true_iff, !andb_true_iff.
    intros [[[[E1 H2] H3] | [[E1 H2] H3]] | [[E1 E2] H3]];
      apply Ascii.eqb_eq in E1; subst c1;
      try (apply Ascii.eqb_eq in E2; subst c2);
      try (apply (in_range_digit "0" "4") in H2; [| reflexivity ..]);
      try (apply (in_range_digit "0" "5") in H3; [| reflexivity ..]);
      rewrite ?H2, ?H3; repeat split; solve [reflexivity | lia].
Qed.

Ltac each_digit H :=
  apply is_digit_cases in H; simpl in H;
  destruct H as [H | [H | [H | [H | [H | [H | [H | [H | [H | [H | []]]]]]]]]]];
  subst.

(** On an octet string, comparing the text and comparing the number agree,
    and the number is in 0..255. *)
Lemma is_octet_ok (a : string) : is_octet a = true -> octet_ok a = true.
Proof.
  intros H. destruct (is_octet_digits a H) as [Hd Hlen].
  destruct a as [| c1 [| c2 [| c3 [| c4 a]]]]; simpl in Hlen; try lia.
  - simpl in Hd. rewrite andb_true_r in Hd. each_digit Hd; reflexivity.
  - simpl in Hd. rewrite andb_true_r in Hd. apply andb_true_iff in Hd.
    destruct Hd as [H1 H2].
    each_digit H1; each_digit H2; vm_compute in H; try discriminate H;
      reflexivity.
  - simpl in Hd. rewrite andb_true_r in Hd. apply andb_true_iff in Hd.
    destruct Hd as [H1 Hd]. apply andb_true_iff in Hd. destruct Hd as [H2 H3].
    each_digit H1; vm_compute in H;
      try discriminate H;
      each_digit H2; vm_compute in H; try discriminate H;
      each_digit H3; vm_compute in H; try discriminate H;
      reflexivity.
Qed.

Lemma split_nonempty (sep : ascii) (s : string) : split sep s <> [].
Proof.
  intros H. apply (f_equal (@List.length _)) in H.
  rewrite split_length in H. discriminate H.
Qed.

Lemma split_join (sep : ascii) (s : string) : join sep (split sep s) = s.
Proof.
  unfold join. induction s as [| c s IH]; simpl; [reflexivity |].
  destruct (Ascii.eqb_spec c sep) as [E | E].
  - subst c. destruct (split sep s) as [| piece pieces] eqn:Hs.
    + exfalso. exact (split_nonempty sep s Hs).
    + simpl in *. now rewrite IH.
  - destruct (split sep s) as [| piece pieces] eqn:Hs.
    + exfalso. exact (split_nonempty sep s Hs).
    + destruct pieces as [| piece' pieces]; simpl in *; now rewrite IH.
Qed.

Lemma isIp_v4_fields (addr : string) :
  isIp_v4 addr = true ->
  exists a b c d,
    split "." addr = [a; b; c; d]
    /\ addr = (a ++ "." ++ b ++ "." ++ c ++ "." ++ d)%string
    /\ is_octet a = true /\ is_octet b = true
    /\ is_octet c = true /\ is_octet d = true.
Proof.
  unfold isIp_v4. intros H.
  destruct (split "." addr) as [| a [| b [| c [| d [| e l]]]]] eqn:Hs;
    try discriminate.
  rewrite !andb_true_iff in H. destruct H as [[[Ha Hb] Hc] Hd].
  exists a, b, c, d. repeat split; try assumption.
  rewrite <- (split_join "." addr) at 1. rewrite Hs. reflexivity.
Qed.

(** One field of [ipv4re]: the greedy [\d{1,3}] takes the whole octet when
    what follows is the end of the input or a dot. *)
Lemma ipv4re_field (a rest : string) (pat : list item) (caps : list string) :
  is_octet a = true ->
  (rest = EmptyString \/ exists r, rest = String "." r) ->
  match_here false pat rest = Some caps ->
  match_here false (Rep is_digit 1 (Some 3) true :: pat) (a ++ rest)%string
  = Some (a :: caps).
Proof.
  intros Ha Hrest Hk. destruct (is_octet_digits a Ha) as [Hd Hlen].
  rewrite match_here_rep.
  rewrite (rep_greedy is_digit 1 (Some 3) true _ a rest caps 0 [] Hd).
  - rewrite rev_string_push. simpl. now rewrite append_nil_r.
  - simpl. lia.
  - destruct Hrest as [E | [r E]]; subst rest; reflexivity.
  - simpl. lia.
  - exact Hk.
Qed.

Lemma ipv4re_exec (a b c d : string) :
  is_octet a = true -> is_octet b = true ->
  is_octet c = true -> is_octet d = true ->
  exec Part_001.ipv4re (a ++ "." ++ b ++ "." ++ c ++ "." ++ d)%string
  = Some [a; b; c; d].
Proof.
  intros Ha Hb Hc Hd. apply exec_here.
  change (ignoreCase Part_001.ipv4re) with false.
  change (items Part_001.ipv4re)
    with [Rep is_digit 1 (Some 3) true; Lit ".";
          Rep is_digit 1 (Some 3) true; Lit ".";
          Rep is_digit 1 (Some 3) true; Lit ".";
          Rep is_digit 1 (Some 3) true].
  change (a ++ "." ++ b ++ "." ++ c ++ "." ++ d)%string
    with (a ++ String "." (b ++ String "." (c ++ String "." d)))%string.
  apply ipv4re_field; [assumption | right; eauto |].
  rewrite match_here_lit. change (chr_eq false "." ".") with true. cbv iota.
  apply ipv4re_field; [assumption | right; eauto |].
  rewrite match_here_lit. change (chr_eq false "." ".") with true. cbv iota.
  apply ipv4re_field; [assumption | right; eauto |].
  rewrite match_here_lit. change (chr_eq false "." ".") with true. cbv iota.
  rewrite <- (append_nil_r d) at 1.
  apply ipv4re_field; [assumption | left; reflexivity | reflexivity].
Qed.

Lemma agrees_true (a text : string) (n k : Z) :
  agrees a text n k = true -> String.eqb a text = (n =? k)%Z.
Proof. unfold agrees. intros H. now apply Bool.eqb_prop in H. Qed.

Lemma isPrivate_ipv4 (isIp_v6 : string -> bool) (addr : string) :
  isIp_v4 addr = true ->
  (0 <= octet 0 addr <= 255)%Z /\ (0 <= octet 1 addr <= 255)%Z
  /\ Part_001.isPrivate isIp_v6 addr
     = Ok (private_range (octet 0 addr) (octet 1 addr)).
Proof.
  intros Hv4. destruct (isIp_v4_fields addr Hv4)
    as [a [b [c [d [Hs [Haddr [Ha [Hb [Hc Hd]]]]]]]]].
  unfold Part_001.isPrivate, octet. rewrite Hv4, Hs.
  rewrite Haddr at 1. rewrite (ipv4re_exec a b c d Ha Hb Hc Hd).
  change (group [a; b; c; d] 1) with a. change (group [a; b; c; d] 2) with b.
  change (nth 0 [a; b; c; d] "") with a. change (nth 1 [a; b; c; d] "") with b.
  pose proof (is_octet_ok a Ha) as Oa. pose proof (is_octet_ok b Hb) as Ob.
  unfold octet_ok in Oa, Ob.
  destruct (Number a) as [n |]; [| discriminate].
  destruct (Number b) as [m |]; [| discriminate].
  rewrite !andb_true_iff in Oa, Ob.
  destruct Oa as [[[[[[An0 An1] A10] A172] A192] _] _].
  destruct Ob as [[[[[[Bm0 Bm1] _] _] _] B168] _].
  apply Z.leb_le in An0, An1, Bm0, Bm1.
  rewrite (agrees_true _ _ _ _ A10), (agrees_true _ _ _ _ A172),
    (agrees_true _ _ _ _ A192), (agrees_true _ _ _ _ B168).
  repeat split; try assumption.
  unfold private_range.
  destruct (Z.eqb_spec n 10) as [E | E]; [reflexivity |].
  destruct (Z.eqb_spec n 172) as [E' | E'].
  - subst n. rewrite andb_false_l, orb_false_r. reflexivity.
  - reflexivity.
Qed.

Lemma startsWith_fd (addr : string) :
  startsWith (toLowerCase addr) "fd" = true
  <-> exists c1 c2 rest,
        addr = String c1 (String c2 rest)
        /\ lower c1 = "f"%char /\ lower c2 = "d"%char.
Proof.
  split.
  - destruct addr as [| c1 [| c2 rest]];
      cbn [startsWith toLowerCase]; try discriminate.
    + rewrite andb_false_r. discriminate.
    + rewrite andb_true_r, andb_true_iff, !Ascii.eqb_eq.
      intros [E1 E2]. exists c1, c2, rest. repeat split; now symmetry.
  - intros [c1 [c2 [rest [Ha [H1 H2]]]]]. subst addr.
    cbn [startsWith toLowerCase]. rewrite H1, H2. reflexivity.
Qed.

(** The expectations of [test/address.test.ts], and the further examples
    of the specification. *)
Lemma address_test_ts :
  Part_001.addressFromLiteral "[127.0.0.1]" = Ok "127.0.0.1"
  /\ Part_001.addressFromLiteral "[IPv6:::1]" = Ok "::1"
  /\ map (Part_001.isLoopback example_isIp_v6)
         ["127.0.0.1"; "192.168.0.1"; "::1"; "fd12:3456:789a:1::1"]
     = [Ok true; Ok false; Ok true; Ok false]
  /\ map (Part_001.isPrivate example_isIp_v6)
         ["10.0.0.1"; "172.16.0.1"; "192.168.0.1"; "fd12:3456:789a:1::1";
          "9.9.9.9"; "172.32.0.1"]
     = [Ok true; Ok true; Ok true; Ok true; Ok false; Ok false].
Proof. repeat split. Qed.

(** C9.  On a valid IPv4 address [isPrivate] answers whether the first
    octet is 10, or the first is 172 and the second is in 16..31, or the
    first two are 192 and 168; on a valid IPv6 address (which is never a
    valid IPv4 address) it answers whether the first two characters are
    ["fd"] in either letter case; on any other string it throws the
    "is not an IP address" error. *)
Theorem isPrivate_classifies (isIp_v6 : string -> bool) (addr : string) :
  (isIp_v4 addr = true ->
   Part_001.isPrivate isIp_v6 addr
   = Ok (private_range (octet 0 addr) (octet 1 addr)))
  /\ (isIp_v4 addr = false -> isIp_v6 addr = true ->
      exists answer,
        Part_001.isPrivate isIp_v6 addr = Ok answer
        /\ (answer = true
            <-> exists c1 c2 rest,
                  addr = String c1 (String c2 rest)
                  /\ lower c1 = "f"%char /\ lower c2 = "d"%char))
  /\ (isIp_v4 addr = false -> isIp_v6 addr = false ->
      Part_001.isPrivate isIp_v6 addr
      = Throw (new_Error (addr ++ " is not an IP address"))).
Proof.
  split; [| split].
  - intros Hv4. apply (isPrivate_ipv4 isIp_v6 addr Hv4).
  - intros Hv4 Hv6. exists (startsWith (toLowerCase addr) "fd"). split.
    + unfold Part_001.isPrivate. rewrite Hv4, Hv6. reflexivity.
    + apply startsWith_fd.
  - intros Hv4 Hv6. unfold Part_001.isPrivate. rewrite Hv4, Hv6. reflexivity.
Qed.

Lemma isPrivate_classifies_witness :
  Part_001.isPrivate example_isIp_v6 "172.16.0.1" = Ok true
  /\ Part_001.isPrivate example_isIp_v6 "172.32.0.1" = Ok false
  /\ (exists answer,
        Part_001.isPrivate example_isIp_v6 "FD12:3456:789a:1::1" = Ok answer
        /\ (answer = true
            <-> exists c1 c2 rest,
                  "FD12:3456:789a:1::1" = String c1 (String c2 rest)
                  /\ lower c1 = "f"%char /\ lower c2 = "d"%char))
  /\ Part_001.isPrivate example_isIp_v6 "mx.example.com"
     = Throw (new_Error "mx.example.com is not an IP address").
Proof.
  split; [| split; [| split]].
  - apply (proj1 (isPrivate_classifies example_isIp_v6 "172.16.0.1")).
    reflexivity.
  - apply (proj1 (isPrivate_classifies example_isIp_v6 "172.32.0.1")).
    reflexivity.
  - apply (proj1 (proj2 (isPrivate_classifies example_isIp_v6
                           "FD12:3456:789a:1::1"))); reflexivity.
  - apply (proj2 (proj2 (isPrivate_classifies example_isIp_v6 "mx.example.com")));
      reflexivity.
Defined.

(** * Further properties of the code *)

(** ** The address classifier *)

Lemma ipv4re_matches_valid (addr : string) :
  isIp_v4 addr = true ->
  exists a b c d,
    split "." addr = [a; b; c; d]
    /\ exec Part_001.ipv4re addr = Some [a; b; c; d]
    /\ octet_ok a = true /\ octet_ok b = true.
Proof.
  intros Hv4. destruct (isIp_v4_fields addr Hv4)
    as [a [b [c [d [Hs [Haddr [Ha [Hb [Hc Hd]]]]]]]]].
  exists a, b, c, d. split; [exact Hs |]. split.
  - rewrite Haddr at 1. now apply ipv4re_exec.
  - split; now apply is_octet_ok.
Qed.

Lemma isLoopback_ipv4 (isIp_v6 : string -> bool) (addr : string) :
  isIp_v4 addr = true ->
  Part_001.isLoopback isIp_v6 addr = Ok (octet 0 addr =? 127)%Z.
Proof.
  intros Hv4. destruct (ipv4re_matches_valid addr Hv4)
    as [a [b [c [d [Hs [Hm [Oa _]]]]]]].
  unfold Part_001.isLoopback, octet. rewrite Hv4, Hs, Hm.
  change (group [a; b; c; d] 1) with a. change (nth 0 [a; b; c; d] "") with a.
  unfold octet_ok in Oa. destruct (Number a) as [n |]; [| discriminate].
  rewrite !andb_true_iff in Oa. destruct Oa as [_ A127].
  now rewrite (agrees_true _ _ _ _ A127).
Qed.

(** X1.  [isLoopback]: on a valid IPv4 address it answers whether the first
    octet is 127; on a valid IPv6 address (not a valid IPv4 one) it answers
    whether the text is exactly ["::1"]; on any other string it throws the
    "is not an IP address" error. *)
Theorem isLoopback_classifies (isIp_v6 : string -> bool) (addr : string) :
  (isIp_v4 addr = true ->
   Part_001.isLoopback isIp_v6 addr = Ok (octet 0 addr =? 127)%Z)
  /\ (isIp_v4 addr = false -> isIp_v6 addr = true ->
      Part_001.isLoopback isIp_v6 addr = Ok (String.eqb addr "::1"))
  /\ (isIp_v4 addr = false -> isIp_v6 addr = false ->
      Part_001.isLoopback isIp_v6 addr
      = Throw (new_Error (addr ++ " is not an IP address"))).
Proof.
  split; [| split].
  - apply isLoopback_ipv4.
  - intros Hv4 Hv6. unfold Part_001.isLoopback. now rewrite Hv4, Hv6.
  - intros Hv4 Hv6. unfold Part_001.isLoopback. now rewrite Hv4, Hv6.
Qed.

Lemma isLoopback_classifies_witness :
  Part_001.isLoopback example_isIp_v6 "127.10.0.1" = Ok true
  /\ Part_001.isLoopback example_isIp_v6 "0:0:0:0:0:0:0:1" = Ok false
  /\ Part_001.isLoopback example_isIp_v6 "localhost"
     = Throw (new_Error "localhost is not an IP address").
Proof.
  split; [| split].
  - apply (proj1 (isLoopback_classifies example_isIp_v6 "127.10.0.1")).
    reflexivity.
  - apply (proj1 (proj2 (isLoopback_classifies example_isIp_v6 "0:0:0:0:0:0:0:1")));
      reflexivity.
  - apply (proj2 (proj2 (isLoopback_classifies example_isIp_v6 "localhost")));
      reflexivity.
Defined.

(** X2.  The only error the two classifiers throw is "is not an IP address",
    and they throw it only for a string that is neither a valid IPv4 nor a
    valid IPv6 address: the "not a valid IPv4 address" branch is never
    taken, because [ipv4re] matches every address [isIp.v4] accepts. *)
Theorem classifier_errors (isIp_v6 : string -> bool) (addr : string) (e : value) :
  Part_001.isLoopback isIp_v6 addr = Throw e
  \/ Part_001.isPrivate isIp_v6 addr = Throw e ->
  e = new_Error (addr ++ " is not an IP address")
  /\ isIp_v4 addr = false /\ isIp_v6 addr = false.
Proof.
  intros H. destruct (isIp_v4 addr) eqn:Hv4.
  - exfalso. destruct H as [H | H].
    + rewrite (isLoopback_ipv4 isIp_v6 addr Hv4) in H. discriminate H.
    + rewrite (proj2 (proj2 (isPrivate_ipv4 isIp_v6 addr Hv4))) in H.
      discriminate H.
  - unfold Part_001.isLoopback, Part_001.isPrivate in H. rewrite Hv4 in H.
    destruct (isIp_v6 addr).
    + destruct H as [H | H]; discriminate H.
    + destruct H as [H | H]; injection H as H; subst e; repeat split.
Qed.

Lemma classifier_errors_witness :
  new_Error "mx.example.com is not an IP address"
  = new_Error ("mx.example.com" ++ " is not an IP address")
  /\ isIp_v4 "mx.example.com" = false
  /\ example_isIp_v6 "mx.example.com" = false.
Proof.
  apply (classifier_errors example_isIp_v6 "mx.example.com").
  left. reflexivity.
Defined.

(** X3.  An address [isLoopback] accepts is never private. *)
Theorem loopback_is_not_private (isIp_v6 : string -> bool) (addr : string) :
  Part_001.isLoopback isIp_v6 addr = Ok true ->
  Part_001.isPrivate isIp_v6 addr = Ok false.
Proof.
  intros H. destruct (isIp_v4 addr) eqn:Hv4.
  - rewrite (isLoopback_ipv4 isIp_v6 addr Hv4) in H.
    injection H as H. apply Z.eqb_eq in H.
    rewrite (proj2 (proj2 (isPrivate_ipv4 isIp_v6 addr Hv4))), H. reflexivity.
  - unfold Part_001.isLoopback in H. unfold Part_001.isPrivate.
    rewrite Hv4 in *. destruct (isIp_v6 addr); [| discriminate H].
    injection H as H. apply String.eqb_eq in H. subst addr. reflexivity.
Qed.

Lemma loopback_is_not_private_witness :
  Part_001.isPrivate example_isIp_v6 "127.0.0.1" = Ok false
  /\ Part_001.isPrivate example_isIp_v6 "::1" = Ok false.
Proof.
  split.
  - apply (loopback_is_not_private example_isIp_v6 "127.0.0.1"). reflexivity.
  - apply (loopback_is_not_private example_isIp_v6 "::1"). reflexivity.
Defined.

(** ** [addressFromLiteral] *)








Lemma all_chars_app (cls : ascii -> bool) (a b : string) :
  all_chars cls (a ++ b)%string = all_chars cls a && all_chars cls b.
Proof.
  induction a as [| c a IH]; simpl; [reflexivity |].
  now rewrite IH, andb_assoc.
Qed.

Lemma all_chars_weaken (p q : ascii -> bool) (s : string) :
  (forall c, p c = true -> q c = true) ->
  all_chars p s = true -> all_chars q s = true.
Proof.
  intros Hpq. induction s as [| c s IH]; simpl; [reflexivity |].
  rewrite !andb_true_iff. intros [Hc Hs]. split; [now apply Hpq | now apply IH].
Qed.

Lemma all_chars_count (cls : ascii -> bool) (c0 : ascii) (s : string) :
  cls c0 = false -> all_chars cls s = true -> count_char c0 s = 0.
Proof.
  intros H0. induction s as [| c s IH]; simpl; [reflexivity |].
  rewrite andb_true_iff. intros [Hc Hs].
  destruct (Ascii.eqb_spec c c0) as [E | E].
  - subst c. rewrite H0 in Hc. discriminate Hc.
  - simpl. now apply IH.
Qed.


Lemma isIp_v4_chars (addr : string) :
  isIp_v4 addr = true ->
  all_chars digit_or_dot addr = true /\ not_tagged addr = true.
Proof.
  intros Hv4. destruct (isIp_v4_fields addr Hv4)
    as [a [b [c [d [Hs [Haddr [Ha [Hb [Hc Hd]]]]]]]]].
  assert (Hdig : forall p, is_octet p = true -> all_chars digit_or_dot p = true).
  { intros p Hp. apply (all_chars_weaken is_digit).
    - intros x Hx. unfold digit_or_dot. now rewrite Hx.
    - apply (is_octet_digits p Hp). }
  split.
  - rewrite Haddr.
    change (a ++ "." ++ b ++ "." ++ c ++ "." ++ d)%string
      with (a ++ String "." (b ++ String "." (c ++ String "." d)))%string.
    rewrite all_chars_app. cbn [all_chars]. rewrite all_chars_app.
    cbn [all_chars]. rewrite all_chars_app. cbn [all_chars].
    rewrite (Hdig a Ha), (Hdig b Hb), (Hdig c Hc), (Hdig d Hd). reflexivity.
  - rewrite Haddr. destruct (is_octet_digits a Ha) as [Hda Hlen].
    destruct a as [| x a]; [simpl in Hlen; lia |].
    simpl in Hda. apply andb_true_iff in Hda. destruct Hda as [Hx _].
    cbn [append not_tagged]. apply is_digit_cases in Hx. simpl in Hx.
    destruct Hx as [H | [H | [H | [H | [H | [H | [H | [H | [H | [H | []]]]]]]]]]];
      subst x; reflexivity.
Qed.

(** An untagged bracketed text is not taken for an IPv6 literal. *)
Lemma m6_no_match (s : string) :
  count_char "[" s = 0 -> count_char "]" s = 0 -> not_tagged s = true ->
  exec Part_001.m6_re ("[" ++ s ++ "]")%string = None.
Proof.
  intros Hl Hr Ht.
  change ("[" ++ s ++ "]")%string with (String "[" (s ++ "]")).
  rewrite exec_unfold.
  change (items Part_001.m6_re)
    with [Lit "["; Lit "I"; Lit "P"; Lit "v"; Lit "6"; Lit ":";
          Rep not_rbracket 0 None true; Lit "]"].
  change (ignoreCase Part_001.m6_re) with true.
  rewrite match_here_lit. change (chr_eq true "[" "[") with true. cbv iota.
  assert (Hhere : match_here true
                    [Lit "I"; Lit "P"; Lit "v"; Lit "6"; Lit ":";
                     Rep not_rbracket 0 None true; Lit "]"]
                    (s ++ "]")%string = None).
  { destruct s as [| x s]; [reflexivity |].
    cbn [append]. rewrite match_here_lit.
    unfold not_tagged in Ht. apply negb_true_iff in Ht.
    unfold chr_eq. change (lower "I") with "i"%char.
    rewrite Ascii.eqb_sym, Ht. reflexivity. }
  rewrite Hhere.
  rewrite <- (append_nil_r (s ++ "]")).
  rewrite (exec_skip Part_001.m6_re "[" _ (s ++ "]") "" eq_refl).
  - reflexivity.
  - apply no_lbracket.
    clear - Hl. induction s as [| c s IH]; simpl in *; [reflexivity |].
    destruct (Ascii.eqb c "["); simpl in *; [discriminate | now apply IH].
Qed.

(** X5.  Bracketing an address and extracting it again gives the address
    back: for every valid IPv4 address in the form ["[a]"], and for every
    text without ["]"] in the form ["[IPv6:s]"]. *)
Theorem addressFromLiteral_of_literal (addr s : string) :
  isIp_v4 addr = true ->
  count_char "]" s = 0 ->
  Part_001.addressFromLiteral ("[" ++ addr ++ "]")%string = Ok addr
  /\ Part_001.addressFromLiteral ("[IPv6:" ++ s ++ "]")%string = Ok s.
Proof.
  intros Hv4 Hs. split.
  - destruct (isIp_v4_chars addr Hv4) as [Hchars Htag].
    assert (Hl : count_char "[" addr = 0)
      by (now apply (all_chars_count digit_or_dot)).
    assert (Hr : count_char "]" addr = 0)
      by (now apply (all_chars_count digit_or_dot)).
    apply (addressFromLiteral_first_bracket "" addr ""); [reflexivity | exact Hr |].
    apply (m6_no_match addr Hl Hr Htag).
  - apply (addressFromLiteral_IPv6_tag "IPv6:" "" s ""); [reflexivity .. | exact Hs].
Qed.

Lemma addressFromLiteral_of_literal_witness :
  Part_001.addressFromLiteral "[192.0.2.25]" = Ok "192.0.2.25"
  /\ Part_001.addressFromLiteral "[IPv6:2001:db8::25]" = Ok "2001:db8::25".
Proof.
  apply (addressFromLiteral_of_literal "192.0.2.25" "2001:db8::25"); reflexivity.
Defined.

(** ** The resolvers of the three revisions *)

Lemma race_addresses_trace (env : Env) (domain : string) :
  trace (race_addresses env domain) = [EvQueryA domain; EvQueryAAAA domain].
Proof. reflexivity. Qed.

Lemma implicitMX_trace (env : Env) (domain : string) :
  trace (Part_001.implicitMX env domain) = [EvQueryA domain; EvQueryAAAA domain].
Proof.
  destruct (resolve4 env domain) as [l4 | e4] eqn:H4.
  - rewrite implicitMX_found; [reflexivity | eauto].
  - destruct (resolve6 env domain) as [l6 | e6] eqn:H6.
    + rewrite implicitMX_found; [reflexivity | eauto].
    + now rewrite (implicitMX_all_rejected _ _ _ _ H4 H6).
Qed.

(** What [getMXs] does once the MX lookup gave no record. *)
Lemma getMXs_falls_back (env : Env) (domain : string) :
  no_mx (resolveMx env domain) = true ->
  Part_001.getMXs env domain
  = (EvQueryMX domain :: trace (Part_001.implicitMX env domain),
     outcome (Part_001.implicitMX env domain)).
Proof.
  intros Hno. unfold Part_001.getMXs.
  pose proof (implicitMX_outcomes env domain) as Hi.
  destruct (Part_001.implicitMX env domain) as [ti ri].
  unfold outcome, trace in *. simpl in Hi. simpl fst. simpl snd.
  destruct (resolveMx env domain) as [[| r mx] | e]; simpl in Hno;
    try discriminate.
  - simpl. destruct Hi as [Hi | [e4 [e6 Hi]]]; subst ri; simpl;
      now rewrite ?app_nil_r.
  - apply andb_true_iff in Hno. destruct Hno as [He Hn].
    simpl. now rewrite He, Hn.
Qed.

Lemma getMXs_answers (env : Env) (domain : string) (r : MXRecord)
    (mx : list MXRecord) :
  resolveMx env domain = Ok (r :: mx) ->
  Part_001.getMXs env domain
  = ([EvQueryMX domain], Ok (sortBy (random env) (r :: mx))).
Proof. intros H. unfold Part_001.getMXs. now rewrite H. Qed.

(** X6.  The queries of [getMXs]: always the MX query; then the A and the
    AAAA query, once each, exactly when the MX lookup gave an empty answer
    or failed with ENODATA / ENOTFOUND. *)
Theorem getMXs_queries (env : Env) (domain : string) :
  trace (Part_001.getMXs env domain)
  = if no_mx (resolveMx env domain)
    then [EvQueryMX domain; EvQueryA domain; EvQueryAAAA domain]
    else [EvQueryMX domain].
Proof.
  destruct (no_mx (resolveMx env domain)) eqn:Hno.
  - rewrite (getMXs_falls_back env domain Hno). simpl.
    now rewrite implicitMX_trace.
  - unfold Part_001.getMXs.
    destruct (resolveMx env domain) as [[| r mx] | e]; simpl in Hno;
      try discriminate; simpl; [reflexivity |].
    destruct (instanceOfNodeError e); [| reflexivity].
    simpl in Hno. rewrite Hno. reflexivity.
Qed.

(** X7.  In the oldest revision no DNS answer makes the fallback throw: after
    a no-data MX error, [getMXs] returns the implicit route when an address
    lookup answers and the empty route when both fail, whatever the
    failures are; and an empty MX answer is returned as it is, without any
    address lookup. *)
Theorem Main_ts_getMXs_no_record (env : Env) (domain : string) (e : value) :
  (resolveMx env domain = Ok [] ->
   Main_ts.getMXs env domain = ([EvQueryMX domain], Ok []))
  /\ (resolveMx env domain = Throw e -> no_data e = true ->
      exists route,
        Main_ts.getMXs env domain
        = ([EvQueryMX domain; EvQueryA domain; EvQueryAAAA domain], Ok route)
        /\ ((exists l, resolve4 env domain = Ok l)
            \/ (exists l, resolve6 env domain = Ok l) ->
            route = implicit_route domain)
        /\ ((exists e4 e6, resolve4 env domain = Throw e4
                           /\ resolve6 env domain = Throw e6) ->
            route = [])).
Proof.
  split.
  - intros Hmx. unfold Main_ts.getMXs. now rewrite Hmx.
  - intros Hmx Hcode.
    assert (Hdef : e <> VUndef) by (intros E; subst e; discriminate Hcode).
    rewrite (Main_ts_getMXs_catch env domain e Hdef Hmx).
    unfold race_addresses. simpl. rewrite Hcode.
    destruct (resolve4 env domain) as [l4 | e4]; simpl.
    + eexists. split; [reflexivity |]. split; [reflexivity |].
      intros [e4 [e6 [H _]]]. discriminate H.
    + destruct (resolve6 env domain) as [l6 | e6]; simpl.
      * eexists. split; [reflexivity |]. split; [reflexivity |].
        intros [e4' [e6 [_ H]]]. discriminate H.
      * eexists. split; [reflexivity |]. split; [| reflexivity].
        intros [[l H] | [l H]]; discriminate H.
Qed.

Lemma Main_ts_getMXs_no_record_witness :
  exists route,
    Main_ts.getMXs env_no_address "example.com"
    = ([EvQueryMX "example.com"; EvQueryA "example.com";
        EvQueryAAAA "example.com"], Ok route)
    /\ route = [].
Proof.
  destruct (proj2 (Main_ts_getMXs_no_record env_no_address "example.com"
                     (dns_error "queryMx" "ENODATA" "example.com"))
              eq_refl eq_refl) as [route [Hrun [_ Hempty]]].
  exists route. split; [exact Hrun |].
  apply Hempty. eexists. eexists. split; reflexivity.
Defined.

(** X8.  In the middle revision the same situation (no MX record, both
    address lookups failing) makes [getMXs] return [undefined], and
    [sendEmail] then fails on [mxRecords.length] with a [TypeError] that has
    no response code, before any connection is opened. *)
Theorem sendEmail_undefined_route (env : Env) (envelope : Envelope)
    (domain : string) (e e4 e6 : value) :
  resolveMx env domain = Throw e ->
  instanceOfNodeError e = true -> no_data e = true ->
  resolve4 env domain = Throw e4 ->
  resolve6 env domain = Throw e6 ->
  Part_000.getMXs env domain
  = ([EvQueryMX domain; EvQueryA domain; EvQueryAAAA domain], Ok None)
  /\ exists err,
       (resolved <- Part_000.getMXs env domain ;;
        Part_000.sendEmail_route env envelope resolved)
       = ([EvQueryMX domain; EvQueryA domain; EvQueryAAAA domain], Throw err)
       /\ get_prop err "name" = VStr "TypeError"
       /\ get_prop err "responseCode" = VUndef.
Proof.
  intros Hmx He Hcode H4 H6.
  assert (Hrun : Part_000.getMXs env domain
                 = ([EvQueryMX domain; EvQueryA domain; EvQueryAAAA domain],
                    Ok None)).
  { unfold Part_000.getMXs, race_addresses. rewrite Hmx. simpl.
    rewrite He, Hcode, H4, H6. reflexivity. }
  split; [exact Hrun |].
  rewrite Hrun. eexists. split; [reflexivity |]. split; reflexivity.
Qed.

Lemma sendEmail_undefined_route_witness :
  Part_000.getMXs env_no_address "example.com"
  = ([EvQueryMX "example.com"; EvQueryA "example.com";
      EvQueryAAAA "example.com"], Ok None).
Proof.
  apply (proj1 (sendEmail_undefined_route env_no_address example_envelope
                  "example.com"
                  (dns_error "queryMx" "ENODATA" "example.com")
                  (dns_error "queryA" "ENODATA" "example.com")
                  (dns_error "queryAaaa" "ENOTFOUND" "example.com")
                  eq_refl eq_refl eq_refl eq_refl eq_refl)).
Defined.

(** X9.  When the MX lookup answers with at least one record, the three
    revisions of [getMXs] do the same: one query, and the same sorted
    route. *)
Theorem getMXs_revisions_agree (env : Env) (domain : string)
    (mx : list MXRecord) :
  resolveMx env domain = Ok mx ->
  mx <> [] ->
  Main_ts.getMXs env domain = Part_001.getMXs env domain
  /\ Part_000.getMXs env domain
     = (trace (Part_001.getMXs env domain),
        match outcome (Part_001.getMXs env domain) with
        | Ok route => Ok (Some route)
        | Throw err => Throw err
        end).
Proof.
  intros Hmx Hne. destruct mx as [| r mx]; [contradiction |].
  rewrite (getMXs_answers env domain r mx Hmx).
  unfold Main_ts.getMXs, Part_000.getMXs. rewrite Hmx. split; reflexivity.
Qed.

Lemma getMXs_revisions_agree_witness :
  Main_ts.getMXs env_two_hosts "example.com"
  = Part_001.getMXs env_two_hosts "example.com"
  /\ Part_000.getMXs env_two_hosts "example.com"
     = (trace (Part_001.getMXs env_two_hosts "example.com"),
        match outcome (Part_001.getMXs env_two_hosts "example.com") with
        | Ok route => Ok (Some route)
        | Throw err => Throw err
        end).
Proof.
  apply (getMXs_revisions_agree env_two_hosts "example.com" (rev two_hosts)).
  - reflexivity.
  - discriminate.
Defined.

(** ** The host loops of the three revisions *)

Lemma closed_app (t t' : list event) : closed (t ++ t') = closed t ++ closed t'.
Proof.
  induction t as [| ev t IH]; simpl; [reflexivity |].
  destruct ev; simpl; now rewrite IH.
Qed.

Lemma connected_app (t t' : list event) :
  connected (t ++ t') = connected t ++ connected t'.
Proof.
  induction t as [| ev t IH]; simpl; [reflexivity |].
  destruct ev; simpl; now rewrite IH.
Qed.

Lemma queries_app (t t' : list event) : queries (t ++ t') = queries t ++ queries t'.
Proof.
  induction t as [| ev t IH]; simpl; [reflexivity |].
  destruct ev; simpl; now rewrite IH.
Qed.

(** The wrapped attempt tries one connect, opens and closes nothing, and
    asks the resolver nothing; it settles as the session says. *)
Lemma wrapErrorEvent_events (env : Env) (i : nat) (host : string)
    (envelope : Envelope) :
  attempted (trace (wrapErrorEvent env i host envelope)) = []
  /\ closed (trace (wrapErrorEvent env i host envelope)) = []
  /\ connected (trace (wrapErrorEvent env i host envelope)) = [host]
  /\ queries (trace (wrapErrorEvent env i host envelope)) = [].
Proof.
  unfold wrapErrorEvent.
  destruct (connect (session env i host)) as [u | e1 | e1];
    [destruct (send (session env i host)) as [sent | e2 | e2] | |];
    repeat split.
Qed.

Lemma wrapErrorEvent_outcome (env : Env) (i : nat) (host : string)
    (envelope : Envelope) :
  outcome (wrapErrorEvent env i host envelope)
  = match session_error (session env i host) with
    | Some e => Throw e
    | None =>
        match send (session env i host) with
        | Done sent => Ok (obj_set "host" (VStr host) sent)
        | Failed e | SocketError e => Throw e
        end
    end.
Proof.
  unfold wrapErrorEvent, session_error.
  destruct (connect (session env i host)) as [u | e1 | e1];
    [destruct (send (session env i host)) as [sent | e2 | e2] | |];
    reflexivity.
Qed.

(** One turn of a loop whose [catch] block only logs. *)
Lemma failover_turn (host : string) (attempt rest : M (list (string * value)))
    (text : value -> string) :
  (emit (EvNewConnection host) ;;;
   returned <-
     try_catch
       (result <- attempt ;; emit (EvQuit host) ;;; ret (Some result))
       (fun e => emit (EvLog LDebug (text e)) ;;; ret None) ;;
   match returned with
   | Some result => ret result
   | None => emit (EvQuit host) ;;; rest
   end)
  = match outcome attempt with
    | Ok result =>
        (EvNewConnection host :: trace attempt ++ [EvQuit host], Ok result)
    | Throw e =>
        (EvNewConnection host
           :: trace attempt ++ [EvLog LDebug (text e); EvQuit host] ++ trace rest,
         outcome rest)
    end.
Proof.
  destruct attempt as [t [result | e]]; destruct rest as [t' r']; simpl.
  - now rewrite app_nil_r.
  - now rewrite <- app_assoc.
Qed.

Lemma sendEmail_loop_turn (env : Env) (envelope : Envelope) (i : nat)
    (r : MXRecord) (rest : list MXRecord) :
  Part_000.sendEmail_loop env envelope i (r :: rest)
  = match outcome (wrapErrorEvent env i (exchange r) envelope) with
    | Ok result =>
        (EvNewConnection (exchange r)
           :: trace (wrapErrorEvent env i (exchange r) envelope)
              ++ [EvQuit (exchange r)],
         Ok result)
    | Throw e =>
        (EvNewConnection (exchange r)
           :: trace (wrapErrorEvent env i (exchange r) envelope)
              ++ [EvLog LDebug (JSON_stringify env e); EvQuit (exchange r)]
              ++ trace (Part_000.sendEmail_loop env envelope (S i) rest),
         outcome (Part_000.sendEmail_loop env envelope (S i) rest))
    end.
Proof.
  exact (failover_turn (exchange r) (wrapErrorEvent env i (exchange r) envelope)
           (Part_000.sendEmail_loop env envelope (S i) rest)
           (JSON_stringify env)).
Qed.

(** What one turn of the loop of [sendEmail] adds to the call. *)
Lemma sendEmail_loop_cons (env : Env) (envelope : Envelope) (i : nat)
    (r : MXRecord) (rest : list MXRecord) :
  let m := Part_000.sendEmail_loop env envelope i (r :: rest) in
  let next := Part_000.sendEmail_loop env envelope (S i) rest in
  match attempt_error env i r with
  | None =>
      (exists sent, send (session env i (exchange r)) = Done sent
                    /\ outcome m = Ok (obj_set "host" (VStr (exchange r)) sent))
      /\ attempted (trace m) = [exchange r]
      /\ closed (trace m) = [exchange r]
      /\ connected (trace m) = [exchange r]
  | Some e =>
      outcome m = outcome next
      /\ attempted (trace m) = exchange r :: attempted (trace next)
      /\ closed (trace m) = exchange r :: closed (trace next)
      /\ connected (trace m) = exchange r :: connected (trace next)
  end.
Proof.
  cbv zeta. rewrite sendEmail_loop_turn.
  destruct (wrapErrorEvent_events env i (exchange r) envelope)
    as [Ha [Hc [Hn _]]].
  rewrite wrapErrorEvent_outcome. unfold attempt_error.
  destruct (session_error (session env i (exchange r))) as [e |] eqn:Hs.
  - cbn [trace outcome fst snd attempted closed connected].
    rewrite !attempted_app, !closed_app, !connected_app, Ha, Hc, Hn.
    repeat split.
  - destruct (send (session env i (exchange r))) as [sent | e2 | e2] eqn:Hsend;
      try (unfold session_error in Hs; rewrite Hsend in Hs;
           destruct (connect (session env i (exchange r))); discriminate Hs).
    cbn [trace outcome fst snd attempted closed connected].
    rewrite !attempted_app, !closed_app, !connected_app, Ha, Hc, Hn.
    repeat split. exists sent. split; reflexivity.
Qed.

Lemma obj_set_other (k k' : string) (v : value) (props : list (string * value)) :
  k' <> k -> assoc k' (obj_set k v props) = assoc k' props.
Proof.
  intros Hk. induction props as [| [k0 v0] rest IH]; simpl.
  - apply String.eqb_neq in Hk. now rewrite Hk.
  - destruct (String.eqb_spec k k0) as [E | E]; simpl.
    + subst k0. apply String.eqb_neq in Hk. now rewrite Hk.
    + now rewrite IH.
Qed.

(** The one attempt of [sendMessage], with everything it leaves in the
    trace. *)
Lemma sendMessage_route_attempt (env : Env) (envelope : Envelope)
    (r : MXRecord) (rest : list MXRecord) :
  r :: rest <> [null_mx] ->
  attempted (trace (Part_001.sendMessage_route env envelope (r :: rest)))
  = [exchange r]
  /\ closed (trace (Part_001.sendMessage_route env envelope (r :: rest)))
     = [exchange r]
  /\ connected (trace (Part_001.sendMessage_route env envelope (r :: rest)))
     = [exchange r]
  /\ queries (trace (Part_001.sendMessage_route env envelope (r :: rest))) = []
  /\ match attempt_error env 0 r with
     | None =>
         exists sent,
           send (session env 0 (exchange r)) = Done sent
           /\ outcome (Part_001.sendMessage_route env envelope (r :: rest))
              = Ok (obj_set "host" (VStr (exchange r)) sent)
           /\ assoc "host" (obj_set "host" (VStr (exchange r)) sent)
              = VStr (exchange r)
           /\ forall k, k <> "host" ->
                assoc k (obj_set "host" (VStr (exchange r)) sent) = assoc k sent
     | Some e =>
         outcome (Part_001.sendMessage_route env envelope (r :: rest))
         = Throw (Part_001.failure "Delivery attempt failed"
                                   "Delivery attempt failed")
         /\ In (EvLog LError (JSON_stringify env e))
               (trace (Part_001.sendMessage_route env envelope (r :: rest)))
     end.
Proof.
  intros Hnull.
  assert (Hroute : Part_001.sendMessage_route env envelope (r :: rest)
                   = Part_001.sendMessage_loop env envelope 0 (r :: rest)).
  { unfold Part_001.sendMessage_route.
    change (List.length (r :: rest) =? 0)%nat with false. cbv iota.
    destruct rest as [| r' rest]; [| reflexivity].
    destruct ((priority r =? 0)%Z && String.eqb (exchange r) "") eqn:E; [| reflexivity].
    exfalso. apply Hnull. apply andb_true_iff in E. destruct E as [Ep Ee].
    apply Z.eqb_eq in Ep. apply String.eqb_eq in Ee.
    destruct r as [p x]; simpl in *; subst. reflexivity. }
  rewrite Hroute.
  destruct (wrapErrorEvent_events env 0 (exchange r) envelope)
    as [Ha [Hc [Hn Hq]]].
  pose proof (wrapErrorEvent_outcome env 0 (exchange r) envelope) as Ho.
  destruct (wrapErrorEvent env 0 (exchange r) envelope) as [t w] eqn:Hw.
  unfold trace, outcome in Ha, Hc, Hn, Hq, Ho. simpl in Ha, Hc, Hn, Hq, Ho.
  unfold attempt_error.
  destruct (session_error (session env 0 (exchange r))) as [e |] eqn:Hs.
  - subst w. rewrite (sendMessage_loop_rejected _ _ _ _ _ _ _ Hw).
    unfold trace, outcome. simpl.
    rewrite attempted_app, closed_app, connected_app, queries_app, Ha, Hc, Hn, Hq.
    repeat split. right. apply in_or_app. right. left. reflexivity.
  - destruct (send (session env 0 (exchange r))) as [sent | e2 | e2] eqn:Hsend;
      try (unfold session_error in Hs; rewrite Hsend in Hs;
           destruct (connect (session env 0 (exchange r))); discriminate Hs).
    subst w. rewrite (sendMessage_loop_accepted _ _ _ _ _ _ _ Hw).
    unfold trace, outcome. simpl.
    rewrite attempted_app, closed_app, connected_app, queries_app, Ha, Hc, Hn, Hq.
    repeat split. exists sent. repeat split.
    + apply obj_set_get.
    + intros k Hk. now apply obj_set_other.
Qed.

(** X10.  On a route that passes the two route checks, [sendMessage] opens
    one connection, to the exchanger of the first record, and closes it
    once, whether the attempt succeeds or fails.  On success the result is
    the transport's result with [host] set to that exchanger and every
    other property unchanged; on failure the error is logged and the
    "Delivery attempt failed" error is thrown. *)
Theorem sendMessage_route_single_attempt (env : Env) (envelope : Envelope)
    (r : MXRecord) (rest : list MXRecord) :
  r :: rest <> [null_mx] ->
  attempted (trace (Part_001.sendMessage_route env envelope (r :: rest)))
  = [exchange r]
  /\ closed (trace (Part_001.sendMessage_route env envelope (r :: rest)))
     = [exchange r]
  /\ connected (trace (Part_001.sendMessage_route env envelope (r :: rest)))
     = [exchange r]
  /\ match attempt_error env 0 r with
     | None =>
         exists sent,
           send (session env 0 (exchange r)) = Done sent
           /\ outcome (Part_001.sendMessage_route env envelope (r :: rest))
              = Ok (obj_set "host" (VStr (exchange r)) sent)
           /\ assoc "host" (obj_set "host" (VStr (exchange r)) sent)
              = VStr (exchange r)
           /\ forall k, k <> "host" ->
                assoc k (obj_set "host" (VStr (exchange r)) sent) = assoc k sent
     | Some e =>
         outcome (Part_001.sendMessage_route env envelope (r :: rest))
         = Throw (Part_001.failure "Delivery attempt failed"
                                   "Delivery attempt failed")
         /\ In (EvLog LError (JSON_stringify env e))
               (trace (Part_001.sendMessage_route env envelope (r :: rest)))
     end.
Proof.
  intros Hnull.
  destruct (sendMessage_route_attempt env envelope r rest Hnull)
    as [Ha [Hc [Hn [_ Ho]]]].
  repeat split; assumption.
Qed.

Lemma sendMessage_route_single_attempt_witness :
  attempted (trace (Part_001.sendMessage_route env_two_hosts example_envelope two_hosts))
  = ["mx1.example.com"]
  /\ closed (trace (Part_001.sendMessage_route env_two_hosts example_envelope two_hosts))
     = ["mx1.example.com"].
Proof.
  destruct (sendMessage_route_single_attempt env_two_hosts example_envelope
              {| priority := 10; exchange := "mx1.example.com" |}
              [{| priority := 20; exchange := "mx2.example.com" |}])
    as [Ha [Hc _]].
  - discriminate.
  - split; [exact Ha | exact Hc].
Defined.



(** X12.  When every attempt fails, the loop of [sendEmail] has tried every
    record once, in route order, closed every connection, and throws the
    plain "Could not deliver message." error, which has neither a response
    text nor a response code. *)
Theorem sendEmail_loop_exhausted (env : Env) (envelope : Envelope)
    (route : list MXRecord) :
  forall i,
    all_fail env i route ->
    outcome (Part_000.sendEmail_loop env envelope i route)
    = Throw (new_Error "Could not deliver message.")
    /\ get_prop (new_Error "Could not deliver message.") "responseCode" = VUndef
    /\ attempted (trace (Part_000.sendEmail_loop env envelope i route))
       = map exchange route
    /\ closed (trace (Part_000.sendEmail_loop env envelope i route))
       = map exchange route.
Proof.
  induction route as [| r route IH]; intros i Hfail.
  - repeat split.
  - destruct Hfail as [H0 Hfail].
    destruct (IH (S i) Hfail) as [Ho [_ [Ha Hc]]].
    pose proof (sendEmail_loop_cons env envelope i r route) as Hturn.
    cbv zeta in Hturn.
    destruct (attempt_error env i r) as [e |]; [| contradiction].
    destruct Hturn as [Ho0 [Ha0 [Hc0 _]]].
    rewrite Ho0, Ha0, Hc0, Ho, Ha, Hc. repeat split.
Qed.

Lemma sendEmail_loop_exhausted_witness :
  outcome (Part_000.sendEmail_loop env_one_host example_envelope 0 one_host)
  = Throw (new_Error "Could not deliver message.")
  /\ get_prop (new_Error "Could not deliver message.") "responseCode" = VUndef
  /\ attempted (trace (Part_000.sendEmail_loop env_one_host example_envelope 0 one_host))
     = map exchange one_host
  /\ closed (trace (Part_000.sendEmail_loop env_one_host example_envelope 0 one_host))
     = map exchange one_host.
Proof.
  apply (sendEmail_loop_exhausted env_one_host example_envelope one_host 0).
  split; [discriminate | exact I].
Defined.

Lemma sendMessage_loop_cons (env : Env) (envelope : Envelope) (i : nat)
    (r : MXRecord) (rest : list MXRecord) :
  attempted (trace (Part_001.sendMessage_loop env envelope i (r :: rest)))
  = [exchange r]
  /\ closed (trace (Part_001.sendMessage_loop env envelope i (r :: rest)))
     = [exchange r].
Proof.
  destruct (wrapErrorEvent_events env i (exchange r) envelope) as [Ha [Hc _]].
  destruct (wrapErrorEvent env i (exchange r) envelope) as [t [result | e]] eqn:Hw;
    [rewrite (sendMessage_loop_accepted _ _ _ _ _ _ _ Hw)
    | rewrite (sendMessage_loop_rejected _ _ _ _ _ _ _ Hw)];
    cbn [trace outcome fst snd attempted closed] in *;
    rewrite attempted_app, closed_app, Ha, Hc; split; reflexivity.
Qed.

Lemma has_connect_app (t t' : list event) :
  Main_ts.has_connect (t ++ t') = Main_ts.has_connect t || Main_ts.has_connect t'.
Proof.
  induction t as [| ev t IH]; simpl; [reflexivity |].
  destruct ev; simpl; try exact IH; reflexivity.
Qed.

Lemma wrapErrorEvent_has_connect (env : Env) (i : nat) (host : string)
    (envelope : Envelope) :
  Main_ts.has_connect (trace (wrapErrorEvent env i host envelope)) = true.
Proof.
  unfold wrapErrorEvent.
  destruct (connect (session env i host)) as [u | e1 | e1];
    [destruct (send (session env i host)) as [sent | e2 | e2] | |];
    reflexivity.
Qed.

(** One turn of the loop of [sendOutgoingEmail], from how what is inside its
    [try] block settled: after a wrapped attempt the connection can be
    closed; after a failed early lookup [quit()] throws. *)
Lemma sendOutgoingEmail_loop_turn (isIp_v6 : string -> bool) (env : Env)
    (envelope : Envelope) (i : nat) (r : MXRecord) (rest : list MXRecord) :
  let host := exchange r in
  let text := fun e =>
    ("Error in outbound from " ++ from envelope ++ " to " ++ to envelope
       ++ ": " ++ JSON_stringify env e)%string in
  let w := wrapErrorEvent env i host envelope in
  let next := Main_ts.sendOutgoingEmail_loop isIp_v6 env envelope (S i) rest in
  let after (lookup : list event) :=
    match outcome w with
    | Ok result =>
        (EvNewConnection host :: lookup ++ trace w ++ [EvQuit host], Ok result)
    | Throw e =>
        (EvNewConnection host
           :: lookup ++ trace w ++ [EvLog LDebug (text e); EvQuit host]
              ++ trace next,
         outcome next)
    end in
  Main_ts.sendOutgoingEmail_loop isIp_v6 env envelope i (r :: rest)
  = if Main_ts.isIp isIp_v6 host then after []
    else match resolve4 env host with
         | Ok _ => after [EvQueryA host]
         | Throw e =>
             ([EvNewConnection host; EvQueryA host; EvLog LDebug (text e)],
              Throw (VError "TypeError" "this._socket.write is not a function" []))
         end.
Proof.
  cbv zeta. cbn [Main_ts.sendOutgoingEmail_loop].
  pose proof (wrapErrorEvent_has_connect env i (exchange r) envelope) as Hk.
  destruct (wrapErrorEvent env i (exchange r) envelope) as [t w].
  cbn [trace fst] in Hk.
  destruct (Main_ts.sendOutgoingEmail_loop isIp_v6 env envelope (S i) rest)
    as [t' r'].
  destruct (Main_ts.isIp isIp_v6 (exchange r)); cbn [negb].
  - destruct w as [result | e]; simpl.
    + now rewrite app_nil_r.
    + rewrite has_connect_app, Hk. simpl. now rewrite <- app_assoc.
  - destruct (resolve4 env (exchange r)) as [l | e4]; [| reflexivity].
    destruct w as [result | e]; simpl.
    + now rewrite app_nil_r.
    + rewrite has_connect_app, Hk. simpl. now rewrite <- app_assoc.
Qed.

(** What one turn of the loop of [sendOutgoingEmail] adds to the call. *)
Lemma sendOutgoingEmail_loop_cons (isIp_v6 : string -> bool) (env : Env)
    (envelope : Envelope) (i : nat) (r : MXRecord) (rest : list MXRecord) :
  let m := Main_ts.sendOutgoingEmail_loop isIp_v6 env envelope i (r :: rest) in
  let next := Main_ts.sendOutgoingEmail_loop isIp_v6 env envelope (S i) rest in
  if resolves isIp_v6 env (exchange r) then
    match attempt_error env i r with
    | None =>
        (exists sent, send (session env i (exchange r)) = Done sent
                      /\ outcome m = Ok (obj_set "host" (VStr (exchange r)) sent))
        /\ attempted (trace m) = [exchange r]
        /\ closed (trace m) = [exchange r]
        /\ connected (trace m) = [exchange r]
    | Some e =>
        outcome m = outcome next
        /\ attempted (trace m) = exchange r :: attempted (trace next)
        /\ closed (trace m) = exchange r :: closed (trace next)
        /\ connected (trace m) = exchange r :: connected (trace next)
    end
  else
    (exists err, outcome m = Throw err /\ get_prop err "name" = VStr "TypeError")
    /\ attempted (trace m) = [exchange r]
    /\ closed (trace m) = []
    /\ connected (trace m) = []
    /\ queries (trace m) = [EvQueryA (exchange r)].
Proof.
  cbv zeta. rewrite sendOutgoingEmail_loop_turn. cbv zeta. unfold resolves.
  destruct (wrapErrorEvent_events env i (exchange r) envelope)
    as [Ha [Hc [Hn Hq]]].
  rewrite wrapErrorEvent_outcome. unfold attempt_error.
  assert (Hafter : forall lookup,
             attempted lookup = [] -> closed lookup = [] -> connected lookup = [] ->
             let m :=
               match
                 match session_error (session env i (exchange r)) with
                 | Some e => Throw e
                 | None =>
                     match send (session env i (exchange r)) with
                     | Done sent => Ok (obj_set "host" (VStr (exchange r)) sent)
                     | Failed e | SocketError e => Throw e
                     end
                 end
               with
               | Ok result =>
                   (EvNewConnection (exchange r)
                      :: lookup ++ trace (wrapErrorEvent env i (exchange r) envelope)
                         ++ [EvQuit (exchange r)], Ok result)
               | Throw e =>
                   (EvNewConnection (exchange r)
                      :: lookup ++ trace (wrapErrorEvent env i (exchange r) envelope)
                         ++ [EvLog LDebug
                               ("Error in outbound from " ++ from envelope
                                  ++ " to " ++ to envelope ++ ": "
                                  ++ JSON_stringify env e)%string;
                             EvQuit (exchange r)]
                         ++ trace (Main_ts.sendOutgoingEmail_loop isIp_v6 env
                                     envelope (S i) rest),
                    outcome (Main_ts.sendOutgoingEmail_loop isIp_v6 env
                               envelope (S i) rest))
               end in
             match session_error (session env i (exchange r)) with
             | None =>
                 (exists sent, send (session env i (exchange r)) = Done sent
                               /\ outcome m
                                  = Ok (obj_set "host" (VStr (exchange r)) sent))
                 /\ attempted (trace m) = [exchange r]
                 /\ closed (trace m) = [exchange r]
                 /\ connected (trace m) = [exchange r]
             | Some e =>
                 outcome m
                 = outcome (Main_ts.sendOutgoingEmail_loop isIp_v6 env envelope
                              (S i) rest)
                 /\ attempted (trace m)
                    = exchange r
                        :: attempted (trace (Main_ts.sendOutgoingEmail_loop
                                               isIp_v6 env envelope (S i) rest))
                 /\ closed (trace m)
                    = exchange r
                        :: closed (trace (Main_ts.sendOutgoingEmail_loop
                                            isIp_v6 env envelope (S i) rest))
                 /\ connected (trace m)
                    = exchange r
                        :: connected (trace (Main_ts.sendOutgoingEmail_loop
                                               isIp_v6 env envelope (S i) rest))
             end).
  { intros lookup La Lc Ln. cbv zeta.
    destruct (session_error (session env i (exchange r))) as [e |] eqn:Hs.
    - cbn [trace outcome fst snd attempted closed connected].
      rewrite !attempted_app, !closed_app, !connected_app, Ha, Hc, Hn, La, Lc, Ln.
      repeat split.
    - destruct (send (session env i (exchange r))) as [sent | e2 | e2] eqn:Hsend;
        try (unfold session_error in Hs; rewrite Hsend in Hs;
             destruct (connect (session env i (exchange r))); discriminate Hs).
      cbn [trace outcome fst snd attempted closed connected].
      rewrite !attempted_app, !closed_app, !connected_app, Ha, Hc, Hn, La, Lc, Ln.
      repeat split. exists sent. split; reflexivity. }
  destruct (Main_ts.isIp isIp_v6 (exchange r)); cbn [orb].
  - exact (Hafter [] eq_refl eq_refl eq_refl).
  - destruct (resolve4 env (exchange r)) as [l | e4].
    + exact (Hafter [EvQueryA (exchange r)] eq_refl eq_refl eq_refl).
    + repeat split. eexists. split; reflexivity.
Qed.

(** X13.  [sendOutgoingEmail] never connects to a host name whose A lookup
    fails, and the call ends there: the lookup's error is logged, and the
    [quit()] after the [try] statement, made on a connection that was never
    connected, throws a [TypeError] out of the call.  The records after that
    host are not tried. *)
Theorem sendOutgoingEmail_unresolved_host (isIp_v6 : string -> bool)
    (env : Env) (envelope : Envelope) (i : nat) (r : MXRecord)
    (rest : list MXRecord) (e : value) :
  Main_ts.isIp isIp_v6 (exchange r) = false ->
  resolve4 env (exchange r) = Throw e ->
  let m := Main_ts.sendOutgoingEmail_loop isIp_v6 env envelope i (r :: rest) in
  trace m
  = [EvNewConnection (exchange r); EvQueryA (exchange r);
     EvLog LDebug ("Error in outbound from " ++ from envelope ++ " to "
                     ++ to envelope ++ ": " ++ JSON_stringify env e)]
  /\ (exists err, outcome m = Throw err /\ get_prop err "name" = VStr "TypeError")
  /\ connected (trace m) = []
  /\ closed (trace m) = []
  /\ attempted (trace m) = [exchange r].
Proof.
  intros Hip Hres. cbv zeta.
  rewrite sendOutgoingEmail_loop_turn. cbv zeta. rewrite Hip, Hres.
  repeat split. eexists. split; reflexivity.
Qed.

Lemma sendOutgoingEmail_unresolved_host_witness :
  attempted (trace (Main_ts.sendOutgoingEmail_loop example_isIp_v6 env_two_hosts
                      example_envelope 0 two_hosts))
  = ["mx1.example.com"]
  /\ connected (trace (Main_ts.sendOutgoingEmail_loop example_isIp_v6 env_two_hosts
                         example_envelope 0 two_hosts))
     = [].
Proof.
  destruct (sendOutgoingEmail_unresolved_host example_isIp_v6 env_two_hosts
              example_envelope 0
              {| priority := 10; exchange := "mx1.example.com" |}
              [{| priority := 20; exchange := "mx2.example.com" |}]
              (dns_error "queryA" "ENODATA" "mx1.example.com")
              eq_refl eq_refl) as [_ [_ [Hn [_ Ha]]]].
  split; [exact Ha | exact Hn].
Defined.

(** X14.  On a route whose hosts all get past the early lookup (IP
    addresses, or names with an A record), the loops of [sendOutgoingEmail]
    and [sendEmail] behave alike: same outcome, same connections opened,
    tried and closed, in the same order. *)
Theorem sendOutgoingEmail_refines_sendEmail (isIp_v6 : string -> bool)
    (env : Env) (envelope : Envelope) (route : list MXRecord) :
  forall i,
    (forall r, In r route -> resolves isIp_v6 env (exchange r) = true) ->
    let old := Main_ts.sendOutgoingEmail_loop isIp_v6 env envelope i route in
    let new := Part_000.sendEmail_loop env envelope i route in
    outcome old = outcome new
    /\ attempted (trace old) = attempted (trace new)
    /\ connected (trace old) = connected (trace new)
    /\ closed (trace old) = closed (trace new).
Proof.
  induction route as [| r route IH]; intros i Hres; cbv zeta.
  - repeat split.
  - pose proof (sendOutgoingEmail_loop_cons isIp_v6 env envelope i r route) as Hold.
    pose proof (sendEmail_loop_cons env envelope i r route) as Hnew.
    cbv zeta in Hold, Hnew. rewrite (Hres r (or_introl eq_refl)) in Hold.
    destruct (IH (S i) (fun r' Hr' => Hres r' (or_intror Hr')))
      as [Io [Ia [In' Ic]]].
    destruct (attempt_error env i r) as [e |].
    + destruct Hold as [Oo [Oa [Oc On]]]. destruct Hnew as [No [Na [Nc Nn]]].
      rewrite Oo, Oa, Oc, On, No, Na, Nc, Nn, Io, Ia, In', Ic. repeat split.
    + destruct Hold as [[sent [Hs Oo]] [Oa [Oc On]]].
      destruct Hnew as [[sent' [Hs' No]] [Na [Nc Nn]]].
      rewrite Hs in Hs'. injection Hs' as Hs'. subst sent'.
      rewrite Oo, Oa, Oc, On, No, Na, Nc, Nn. repeat split.
Qed.

Lemma sendOutgoingEmail_refines_sendEmail_witness :
  outcome (Main_ts.sendOutgoingEmail_loop example_isIp_v6 env_address_only
             example_envelope 0 two_hosts)
  = outcome (Part_000.sendEmail_loop env_address_only example_envelope 0 two_hosts).
Proof.
  apply (sendOutgoingEmail_refines_sendEmail example_isIp_v6 env_address_only
           example_envelope two_hosts 0).
  intros r [Hr | [Hr | []]]; subst r; reflexivity.
Defined.

(** X15.  No host loop closes a connection it did not try to connect, and
    none leaves a connected one open: in each of the three revisions the
    hosts closed with [quit()] are the hosts [connect()] was called for, in
    the same order, whatever the sessions do.  In [sendMessage] and
    [sendEmail] these are all the connections the loop created. *)
Theorem loops_close_what_they_open (isIp_v6 : string -> bool) (env : Env)
    (envelope : Envelope) (route : list MXRecord) (i : nat) :
  (closed (trace (Part_001.sendMessage_loop env envelope i route))
   = connected (trace (Part_001.sendMessage_loop env envelope i route))
   /\ closed (trace (Part_001.sendMessage_loop env envelope i route))
      = attempted (trace (Part_001.sendMessage_loop env envelope i route)))
  /\ (closed (trace (Part_000.sendEmail_loop env envelope i route))
      = connected (trace (Part_000.sendEmail_loop env envelope i route))
      /\ closed (trace (Part_000.sendEmail_loop env envelope i route))
         = attempted (trace (Part_000.sendEmail_loop env envelope i route)))
  /\ closed (trace (Main_ts.sendOutgoingEmail_loop isIp_v6 env envelope i route))
     = connected (trace (Main_ts.sendOutgoingEmail_loop isIp_v6 env envelope i route)).
Proof.
  split; [| split].
  - destruct route as [| r rest]; [split; reflexivity |].
    destruct (sendMessage_loop_cons env envelope i r rest) as [Ha Hc].
    rewrite Hc, Ha. split; [| reflexivity].
    destruct (wrapErrorEvent_events env i (exchange r) envelope) as [_ [_ [Hn _]]].
    destruct (wrapErrorEvent env i (exchange r) envelope) as [t [result | e]] eqn:Hw;
      [rewrite (sendMessage_loop_accepted _ _ _ _ _ _ _ Hw)
      | rewrite (sendMessage_loop_rejected _ _ _ _ _ _ _ Hw)];
      cbn [trace outcome fst snd connected] in *;
      rewrite connected_app, Hn; reflexivity.
  - revert i. induction route as [| r rest IH]; intros i; [split; reflexivity |].
    pose proof (sendEmail_loop_cons env envelope i r rest) as Hturn.
    cbv zeta in Hturn. destruct (IH (S i)) as [IHn IHa].
    destruct (attempt_error env i r).
    + destruct Hturn as [_ [Ha [Hc Hn]]]. rewrite Ha, Hc, Hn, IHn.
      split; [reflexivity |]. now rewrite <- IHn, IHa.
    + destruct Hturn as [_ [Ha [Hc Hn]]]. rewrite Ha, Hc, Hn. split; reflexivity.
  - revert i. induction route as [| r rest IH]; intros i; [reflexivity |].
    pose proof (sendOutgoingEmail_loop_cons isIp_v6 env envelope i r rest) as Hturn.
    cbv zeta in Hturn. destruct (resolves isIp_v6 env (exchange r)).
    + destruct (attempt_error env i r).
      * destruct Hturn as [_ [_ [Hc Hn]]]. now rewrite Hc, Hn, IH.
      * destruct Hturn as [_ [_ [Hc Hn]]]. now rewrite Hc, Hn.
    + destruct Hturn as [_ [_ [Hc [Hn _]]]]. now rewrite Hc, Hn.
Qed.

(** ** [sendMessage] from end to end *)

Lemma sendMessage_runs (env : Env) (name mailFrom rcptTo domainName : string) :
  passes_validation env mailFrom rcptTo domainName ->
  Part_001.sendMessage env name mailFrom rcptTo
  = (mxRecords <- Part_001.getMXs env domainName ;;
     Part_001.sendMessage_route env {| from := mailFrom; to := rcptTo |} mxRecords).
Proof.
  intros [Hfrom [to_parsed [Hto [Hlit [Hdom Hlabels]]]]].
  now apply (sendMessage_validated env name mailFrom rcptTo to_parsed).
Qed.

Lemma bind_settled {A B} (m : M A) (f : A -> M B) (t : list event) (a : A) :
  m = (t, Ok a) ->
  (x <- m ;; f x) = (t ++ trace (f a), outcome (f a)).
Proof. intros H. subst m. simpl. destruct (f a). reflexivity. Qed.

Lemma bind_rejected {A B} (m : M A) (f : A -> M B) (t : list event) (e : value) :
  m = (t, Throw e) -> (x <- m ;; f x) = (t, Throw e).
Proof. intros H. subst m. reflexivity. Qed.

Lemma sortBy_head_least (rnd : nat -> Z) (mx : list MXRecord) (r : MXRecord)
    (rest : list MXRecord) :
  sortBy rnd mx = r :: rest ->
  In r mx /\ forall r', In r' mx -> (priority r <= priority r')%Z.
Proof.
  intros H. pose proof (sortBy_perm rnd mx) as Hp.
  pose proof (sortBy_sorted rnd mx) as Hs. rewrite H in Hp, Hs. split.
  - apply (Permutation_in r (Permutation_sym Hp)). left. reflexivity.
  - intros r' Hr'. apply (Permutation_in r' Hp) in Hr'.
    apply StronglySorted_inv in Hs. destruct Hs as [_ Hall].
    destruct Hr' as [E | Hin].
    + subst r'. lia.
    + rewrite Forall_forall in Hall. exact (Hall r' Hin).
Qed.

(** X16.  MX preference from end to end: with a valid envelope and an MX
    answer whose exchangers accept mail, [sendMessage] asks the resolver for
    the MX records only, connects to one exchanger, and the [host] of its
    result is an exchanger of the lowest priority value in the answer. *)
Theorem sendMessage_prefers_lowest_priority (env : Env)
    (name mailFrom rcptTo domainName : string) (mx : list MXRecord) :
  passes_validation env mailFrom rcptTo domainName ->
  resolveMx env domainName = Ok mx ->
  mx <> [] -> mx <> [null_mx] ->
  (forall r, In r mx -> attempt_error env 0 r = None) ->
  exists r result,
    In r mx
    /\ (forall r', In r' mx -> (priority r <= priority r')%Z)
    /\ outcome (Part_001.sendMessage env name mailFrom rcptTo) = Ok result
    /\ assoc "host" result = VStr (exchange r)
    /\ attempted (trace (Part_001.sendMessage env name mailFrom rcptTo))
       = [exchange r]
    /\ queries (trace (Part_001.sendMessage env name mailFrom rcptTo))
       = [EvQueryMX domainName].
Proof.
  intros Hvalid Hmx Hne Hnull Hok.
  rewrite (sendMessage_runs env name mailFrom rcptTo domainName Hvalid).
  destruct mx as [| r0 mx0]; [contradiction |].
  rewrite (bind_settled _ _ _ _ (getMXs_answers env domainName r0 mx0 Hmx)).
  destruct (sortBy (random env) (r0 :: mx0)) as [| r rest] eqn:Hsort.
  { exfalso. exact (sortBy_cons_nonempty _ _ _ Hsort). }
  destruct (sortBy_head_least _ _ _ _ Hsort) as [Hin Hleast].
  assert (Hnull' : r :: rest <> [null_mx]).
  { intros E. apply Hnull. pose proof (sortBy_perm (random env) (r0 :: mx0)) as Hp.
    rewrite Hsort, E in Hp. apply Permutation_sym in Hp.
    now apply Permutation_length_1_inv in Hp. }
  destruct (sendMessage_route_attempt env {| from := mailFrom; to := rcptTo |}
              r rest Hnull') as [Ha [_ [_ [Hq Ho]]]].
  rewrite (Hok r Hin) in Ho. destruct Ho as [sent [_ [Ho [Hh _]]]].
  exists r, (obj_set "host" (VStr (exchange r)) sent).
  cbn [trace outcome fst snd].
  split; [exact Hin |]. split; [exact Hleast |]. split; [exact Ho |].
  split; [exact Hh |]. split.
  - cbn [app attempted]. exact Ha.
  - cbn [app queries]. now rewrite Hq.
Qed.

Lemma sendMessage_prefers_lowest_priority_witness :
  exists r result,
    In r (rev two_hosts)
    /\ (forall r', In r' (rev two_hosts) -> (priority r <= priority r')%Z)
    /\ outcome (Part_001.sendMessage env_all_accept "digilicious.com" "<>"
                  "nobody@example.com") = Ok result
    /\ assoc "host" result = VStr (exchange r)
    /\ attempted (trace (Part_001.sendMessage env_all_accept "digilicious.com"
                           "<>" "nobody@example.com"))
       = [exchange r]
    /\ queries (trace (Part_001.sendMessage env_all_accept "digilicious.com"
                         "<>" "nobody@example.com"))
       = [EvQueryMX "example.com"].
Proof.
  apply (sendMessage_prefers_lowest_priority env_all_accept "digilicious.com"
           "<>" "nobody@example.com" "example.com" (rev two_hosts)).
  - split; [left; reflexivity |]. eexists. repeat split. simpl. lia.
  - reflexivity.
  - discriminate.
  - discriminate.
  - intros r Hr. reflexivity.
Defined.

(** X17.  Null MX from end to end: with a valid envelope, a domain whose
    MX answer is the single record [{priority: 0, exchange: ""}] is refused
    with the "Null MX" error (response code 500) after the MX query alone:
    no address lookup, no connection. *)
Theorem sendMessage_null_mx (env : Env)
    (name mailFrom rcptTo domainName : string) :
  passes_validation env mailFrom rcptTo domainName ->
  resolveMx env domainName = Ok [null_mx] ->
  Part_001.sendMessage env name mailFrom rcptTo
  = ([EvQueryMX domainName],
     Throw (Part_001.failure "Null MX record" "Null MX"))
  /\ get_prop (Part_001.failure "Null MX record" "Null MX") "responseCode"
     = VNum 500.
Proof.
  intros Hvalid Hmx.
  rewrite (sendMessage_runs env name mailFrom rcptTo domainName Hvalid).
  rewrite (bind_settled _ _ _ _ (getMXs_answers env domainName _ _ Hmx)).
  split; reflexivity.
Qed.

Lemma sendMessage_null_mx_witness :
  Part_001.sendMessage env_null_mx "digilicious.com" "<>" "nobody@example.com"
  = ([EvQueryMX "example.com"],
     Throw (Part_001.failure "Null MX record" "Null MX"))
  /\ get_prop (Part_001.failure "Null MX record" "Null MX") "responseCode"
     = VNum 500.
Proof.
  apply (sendMessage_null_mx env_null_mx "digilicious.com" "<>"
           "nobody@example.com" "example.com").
  - split; [left; reflexivity |]. eexists. repeat split. simpl. lia.
  - reflexivity.
Defined.

Lemma two_labels_nonempty (domainName : string) :
  2 <= List.length (split "." domainName) -> domainName <> EmptyString.
Proof. intros H E. subst domainName. simpl in H. lia. Qed.

(** X18.  Implicit MX from end to end: with a valid envelope, when the MX
    lookup gives no record and an address lookup answers, [sendMessage]
    makes the three queries and then connects to the domain itself, and to
    nothing else; a successful send returns with [host] set to the
    domain. *)
Theorem sendMessage_implicit_mx (env : Env)
    (name mailFrom rcptTo domainName : string) :
  passes_validation env mailFrom rcptTo domainName ->
  no_mx (resolveMx env domainName) = true ->
  (exists l, resolve4 env domainName = Ok l)
  \/ (exists l, resolve6 env domainName = Ok l) ->
  queries (trace (Part_001.sendMessage env name mailFrom rcptTo))
  = [EvQueryMX domainName; EvQueryA domainName; EvQueryAAAA domainName]
  /\ attempted (trace (Part_001.sendMessage env name mailFrom rcptTo))
     = [domainName]
  /\ (session_error (session env 0 domainName) = None ->
      exists result,
        outcome (Part_001.sendMessage env name mailFrom rcptTo) = Ok result
        /\ assoc "host" result = VStr domainName).
Proof.
  intros Hvalid Hno Haddr.
  rewrite (sendMessage_runs env name mailFrom rcptTo domainName Hvalid).
  assert (Hrun : Part_001.getMXs env domainName
                 = ([EvQueryMX domainName; EvQueryA domainName;
                     EvQueryAAAA domainName],
                    Ok (implicit_route domainName))).
  { rewrite (getMXs_falls_back env domainName Hno).
    now rewrite (implicitMX_found env domainName Haddr). }
  rewrite (bind_settled _ _ _ _ Hrun).
  assert (Hnull : implicit_route domainName <> [null_mx]).
  { intros E. injection E as E.
    destruct Hvalid as [_ [p [_ [_ [_ Hl]]]]].
    exact (two_labels_nonempty domainName Hl E). }
  destruct (sendMessage_route_attempt env {| from := mailFrom; to := rcptTo |}
              {| priority := 0; exchange := domainName |} [] Hnull)
    as [Ha [_ [_ [Hq Ho]]]].
  change ([{| priority := 0; exchange := domainName |}])
    with (implicit_route domainName) in *.
  cbn [exchange] in *. cbn [trace outcome fst snd].
  rewrite queries_app, attempted_app, Ha, Hq. split; [reflexivity |].
  split; [reflexivity |].
  intros Hs. unfold attempt_error in Ho. cbn [exchange] in Ho. rewrite Hs in Ho.
  destruct Ho as [sent [_ [Ho [Hh _]]]]. eexists. split; [exact Ho | exact Hh].
Qed.

Lemma sendMessage_implicit_mx_witness :
  queries (trace (Part_001.sendMessage env_address_only "digilicious.com" "<>"
                    "nobody@example.com"))
  = [EvQueryMX "example.com"; EvQueryA "example.com"; EvQueryAAAA "example.com"]
  /\ attempted (trace (Part_001.sendMessage env_address_only "digilicious.com"
                         "<>" "nobody@example.com"))
     = ["example.com"]
  /\ (session_error (session env_address_only 0 "example.com") = None ->
      exists result,
        outcome (Part_001.sendMessage env_address_only "digilicious.com" "<>"
                   "nobody@example.com") = Ok result
        /\ assoc "host" result = VStr "example.com").
Proof.
  apply (sendMessage_implicit_mx env_address_only "digilicious.com" "<>"
           "nobody@example.com" "example.com").
  - split; [left; reflexivity |]. eexists. repeat split. simpl. lia.
  - reflexivity.
  - left. eexists. reflexivity.
Defined.

(** X19.  With a valid envelope, when the MX lookup gives no record and
    both address lookups fail, [sendMessage] ends after the three queries
    with the [AggregateError] of the address race: an error without
    response code, and not the "No MX or A or AAAA" failure. *)
Theorem sendMessage_no_address (env : Env)
    (name mailFrom rcptTo domainName : string) (e4 e6 : value) :
  passes_validation env mailFrom rcptTo domainName ->
  no_mx (resolveMx env domainName) = true ->
  resolve4 env domainName = Throw e4 ->
  resolve6 env domainName = Throw e6 ->
  Part_001.sendMessage env name mailFrom rcptTo
  = ([EvQueryMX domainName; EvQueryA domainName; EvQueryAAAA domainName],
     Throw (AggregateError [e4; e6]))
  /\ get_prop (AggregateError [e4; e6]) "responseCode" = VUndef.
Proof.
  intros Hvalid Hno H4 H6.
  rewrite (sendMessage_runs env name mailFrom rcptTo domainName Hvalid).
  assert (Hrun : Part_001.getMXs env domainName
                 = ([EvQueryMX domainName; EvQueryA domainName;
                     EvQueryAAAA domainName],
                    Throw (AggregateError [e4; e6]))).
  { rewrite (getMXs_falls_back env domainName Hno).
    now rewrite (implicitMX_all_rejected env domainName e4 e6 H4 H6). }
  rewrite (bind_rejected _ _ _ _ Hrun). split; reflexivity.
Qed.

Lemma sendMessage_no_address_witness :
  Part_001.sendMessage env_no_address "digilicious.com" "<>" "nobody@example.com"
  = ([EvQueryMX "example.com"; EvQueryA "example.com"; EvQueryAAAA "example.com"],
     Throw (AggregateError [dns_error "queryA" "ENODATA" "example.com";
                            dns_error "queryAaaa" "ENOTFOUND" "example.com"]))
  /\ get_prop (AggregateError [dns_error "queryA" "ENODATA" "example.com";
                               dns_error "queryAaaa" "ENOTFOUND" "example.com"])
              "responseCode" = VUndef.
Proof.
  apply (sendMessage_no_address env_no_address "digilicious.com" "<>"
           "nobody@example.com" "example.com").
  - split; [left; reflexivity |]. eexists. repeat split. simpl. lia.
  - reflexivity.
  - reflexivity.
  - reflexivity.
Defined.

(** X20.  With a valid envelope, an MX lookup that fails with any error
    other than ENODATA / ENOTFOUND ends [sendMessage] at once with that
    error: one query, no address lookup, no connection. *)
Theorem sendMessage_dns_failure (env : Env)
    (name mailFrom rcptTo domainName : string) (e : value) :
  passes_validation env mailFrom rcptTo domainName ->
  resolveMx env domainName = Throw e ->
  no_data e = false ->
  Part_001.sendMessage env name mailFrom rcptTo
  = ([EvQueryMX domainName], Throw e).
Proof.
  intros Hvalid Hmx Hcode.
  rewrite (sendMessage_runs env name mailFrom rcptTo domainName Hvalid).
  apply bind_rejected. unfold Part_001.getMXs. rewrite Hmx. simpl.
  rewrite Hcode. destruct (instanceOfNodeError e); reflexivity.
Qed.

Lemma sendMessage_dns_failure_witness :
  Part_001.sendMessage env_timeout "digilicious.com" "<>" "nobody@example.com"
  = ([EvQueryMX "example.com"],
     Throw (dns_error "queryMx" "ETIMEOUT" "example.com")).
Proof.
  apply (sendMessage_dns_failure env_timeout "digilicious.com" "<>"
           "nobody@example.com" "example.com").
  - split; [left; reflexivity |]. eexists. repeat split. simpl. lia.
  - reflexivity.
  - reflexivity.
Defined.
